(** * The prerender builder: builds, route partition and render dispatch

    A shallow embedding of the prerender builder ([_scheduleBuilds],
    [_parallelRenderRoutes], [_renderUniversal], [execute]).  The code is
    asynchronous and talks to a host (the architect context, the file
    system, [child_process], [os] and [path]): the host is a record of
    functions of the history of calls made so far, and an [async] function
    is a function from a history to a completion and a longer history. *)

From Stdlib Require Import List String ZArith Lia Bool Arith PeanoNat DecimalString.
Import ListNotations.

Local Open Scope list_scope.
Local Open Scope string_scope.

Set Implicit Arguments.

(** ** Promises and completions *)

(** A thrown or rejected value: an [Error] object, of which the code reads
    [message] only. *)
Record Error : Type := mkError { message : string }.

(** What becomes of a promise: it fulfils, it rejects, or it stays pending
    for ever (a hung build or worker). *)
Inductive settled (A : Type) : Type :=
| Fulfilled (a : A)
| RejectedWith (e : Error)
| NeverSettles.

Arguments Fulfilled {A} a.
Arguments RejectedWith {A} e.
Arguments NeverSettles {A}.

(** A promise handed out by the host: its fate, and the instant it settles
    at, which decides the race inside [Promise.all]. *)
Record Promise (A : Type) : Type := mkPromise {
  state : settled A;
  settledAt : nat
}.

Definition is_rejected {A} (p : Promise A) : bool :=
  match state p with RejectedWith _ => true | _ => false end.

Definition is_pending {A} (p : Promise A) : bool :=
  match state p with NeverSettles => true | _ => false end.

(** The rejected promise of a list that settles first (the earlier element
    of the array on a tie). *)
Fixpoint first_rejection {A} (ps : list (Promise A)) : option (Error * nat) :=
  match ps with
  | [] => None
  | p :: rest =>
      match state p, first_rejection rest with
      | RejectedWith e, Some (e', t') =>
          if Nat.leb (settledAt p) t' then Some (e, settledAt p) else Some (e', t')
      | RejectedWith e, None => Some (e, settledAt p)
      | _, later => later
      end
  end.

Fixpoint fulfilled_values {A} (ps : list (Promise A)) : option (list A * nat) :=
  match ps with
  | [] => Some ([], 0)
  | p :: rest =>
      match state p, fulfilled_values rest with
      | Fulfilled a, Some (vs, t) => Some (a :: vs, Nat.max (settledAt p) t)
      | _, _ => None
      end
  end.

(** [Promise.all]: rejects as soon as one element rejects, with that
    element's error; fulfils with all the values once every element has
    fulfilled; stays pending otherwise. *)
Definition Promise_all {A} (ps : list (Promise A)) : Promise (list A) :=
  match first_rejection ps with
  | Some (e, t) => mkPromise (RejectedWith e) t
  | None =>
      match fulfilled_values ps with
      | Some (vs, t) => mkPromise (Fulfilled vs) t
      | None => mkPromise NeverSettles 0
      end
  end.

(** [Promise.all] on a two-element array literal, as a pair. *)
Definition Promise_all2 {A B} (p : Promise A) (q : Promise B) : Promise (A * B) :=
  match state p, state q with
  | RejectedWith e, RejectedWith e' =>
      if Nat.leb (settledAt p) (settledAt q)
      then mkPromise (RejectedWith e) (settledAt p)
      else mkPromise (RejectedWith e') (settledAt q)
  | RejectedWith e, _ => mkPromise (RejectedWith e) (settledAt p)
  | _, RejectedWith e' => mkPromise (RejectedWith e') (settledAt q)
  | Fulfilled a, Fulfilled b =>
      mkPromise (Fulfilled (a, b)) (Nat.max (settledAt p) (settledAt q))
  | _, _ => mkPromise NeverSettles 0
  end.

(** How a piece of code completes: normally with a value, by throwing, or
    never (it awaits a promise that stays pending). *)
Inductive completion (A : Type) : Type :=
| Ok (a : A)
| Throw (e : Error)
| Hang.

Arguments Ok {A} a.
Arguments Throw {A} e.
Arguments Hang {A}.

(** ** Data model *)

(** The object [targetFromTargetString] makes of a target string. *)
Record Target : Type := mkTarget {
  project : string;
  target : string;
  configuration : option string
}.

(** The overrides passed to [context.scheduleTarget]; the server build is
    scheduled without a [serviceWorker] key. *)
Record ScheduleOptions : Type := mkScheduleOptions {
  watch : bool;
  serviceWorker : option bool
}.

Module BuilderOutput.
Record t : Type := make {
  success : bool;
  error : option string
}.
End BuilderOutput.

(** [BuildBuilderOutput]: the paths are declared as strings, but the code
    tests [baseOutputPath] against [undefined] and gives it a default, so it
    is optional here. *)
Module BuildBuilderOutput.
Record t : Type := make {
  success : bool;
  error : option string;
  baseOutputPath : option string;
  outputPaths : list string;
  outputPath : string
}.

Definition with_baseOutputPath (o : t) (v : option string) : t :=
  make (success o) (error o) v (outputPaths o) (outputPath o).
End BuildBuilderOutput.

Module ScheduleBuildsOutput.
Record t : Type := make {
  success : bool;
  error : option string;
  browserResult : option BuildBuilderOutput.t;
  serverResult : option BuildBuilderOutput.t
}.
End ScheduleBuildsOutput.

(** The options of the builder that the code reads. *)
Record PrerenderBuilderOptions : Type := mkOptions {
  browserTarget : string;
  serverTarget : string;
  routesFile : option string;
  routes : option (list string);
  numProcesses : option Z
}.

(** What [execute] resolves with: the bare [{ success, error }] object, or
    the browser result that [_renderUniversal] hands back. *)
Inductive PrerenderBuilderOutput : Type :=
| StatusOnly (o : BuilderOutput.t)
| BrowserOutput (browserResult : BuildBuilderOutput.t).

(** A message of a render worker: [{ success: true, outputIndexPath, bytes }]
    or [{ success: false, outputIndexPath, error: { message } }]. *)
Inductive WorkerReport : Type :=
| Rendered (outputIndexPath : string) (bytes : nat)
| Failed (outputIndexPath : string) (errorMessage : string).

(** The events a forked child emits, in the order it emits them. *)
Inductive child_event : Type :=
| OnMessage (data : WorkerReport)
| OnExit
| OnError (e : Error).

Record ChildProcess : Type := mkChild {
  emits : list child_event;
  endsAt : nat
}.

(** The calls the builder makes on its host, in order: the history. A
    [Fork] event carries the child the call returned, a [Stop] event the
    handle it was called on. *)
Inductive event : Type :=
| ScheduleTarget (t : Target) (overrides : ScheduleOptions)
| Stop (handle : nat)
| Fork (modulePath : string) (args : list string) (child : ChildProcess)
| LogInfo (line : string)
| LogError (line : string).

Definition history : Type := list event.

(** What the host gives back for a scheduled target: the promise of the
    build's output and what [stop()] does when it is called. *)
Record Job : Type := mkJob {
  output : Promise BuildBuilderOutput.t;
  stopped : history -> Promise unit
}.

(** A [BuilderRun]: a fresh object per [scheduleTarget] call, named by the
    number of events that came before the call. *)
Record BuilderRun : Type := mkRun {
  handle : nat;
  job : Job
}.

Definition result (r : BuilderRun) : Promise BuildBuilderOutput.t := output (job r).

(** ** The host

    Everything the builder imports or is handed: architect's
    [targetFromTargetString] and [context], [getRoutes] of [./utils], and
    Node's [os], [fs], [path] and [child_process].  What a call returns may
    depend on all that happened before it. *)
Record Host : Type := mkHost {
  targetFromTargetString : string -> Error + Target;
  scheduleTarget : history -> Target -> ScheduleOptions -> Promise Job;
  workspaceRoot : string;
  getRoutes : string -> option string -> option (list string) -> Error + list string;
  cpus_length : Z;
  readFileSync : history -> string -> Error + string;
  existsSync : history -> string -> bool;
  fork : history -> string -> list string -> ChildProcess;
  path_join : list string -> string;
  path_relative : string -> string -> string;
  dirname : string
}.

(** ** Asynchronous code as history passing *)

Definition M (A : Type) : Type := history -> completion A * history.

Definition ret {A} (a : A) : M A := fun h => (Ok a, h).

Definition throw {A} (e : Error) : M A := fun h => (Throw e, h).

Definition bind {A B} (c : M A) (k : A -> M B) : M B :=
  fun h =>
    match c h with
    | (Ok a, h') => k a h'
    | (Throw e, h') => (Throw e, h')
    | (Hang, h') => (Hang, h')
    end.

Declare Scope async_scope.
Delimit Scope async_scope with async.
Notation "x <- c ;; k" := (bind c (fun x => k))
  (at level 100, c at next level, right associativity) : async_scope.
Notation "c ;;; k" := (bind c (fun _ => k))
  (at level 100, right associativity) : async_scope.
Local Open Scope async_scope.

(** [await p]. *)
Definition await {A} (p : Promise A) : M A :=
  fun h =>
    match state p with
    | Fulfilled a => (Ok a, h)
    | RejectedWith e => (Throw e, h)
    | NeverSettles => (Hang, h)
    end.

(** A synchronous host call that returns or throws. *)
Definition call {A} (r : Error + A) : M A :=
  match r with
  | inl e => throw e
  | inr a => ret a
  end.

Definition emit (e : event) : M unit := fun h => (Ok tt, (h ++ [e])%list).

Definition now : M history := fun h => (Ok h, h).

(** [try { body } catch (e) { handler } finally { finalizer }] where body
    and handler end in [return]: the finalizer runs after either, and a
    finalizer that throws (or hangs) replaces the pending return. *)
Definition try_catch_finally {A} (body : M A) (handler : Error -> M A)
    (finalizer : M unit) : M A :=
  fun h =>
    let '(c, h1) :=
      match body h with
      | (Throw e, h') => handler e h'
      | done => done
      end in
    match c with
    | Hang => (Hang, h1)
    | _ =>
        match finalizer h1 with
        | (Ok _, h2) => (c, h2)
        | (Throw e, h2) => (Throw e, h2)
        | (Hang, h2) => (Hang, h2)
        end
    end.

(** [for (const x of xs) { body }]. *)
Fixpoint for_of {A} (xs : list A) (body : A -> M unit) : M unit :=
  match xs with
  | [] => ret tt
  | x :: rest => body x ;;; for_of rest body
  end.

(** JavaScript's [a || b] on an optional string and on an optional number:
    [undefined], the empty string and [0] are falsy. *)
Definition or_string (a b : option string) : option string :=
  match a with
  | Some s => if String.eqb s "" then b else a
  | None => b
  end.

Definition or_number (a : option Z) (b : Z) : Z :=
  match a with
  | Some n => if Z.eqb n 0 then b else n
  | None => b
  end.

(** Decimal text of a number inside a template string. *)
Definition decimal (n : nat) : string := NilZero.string_of_uint (Nat.to_uint n).

(** ** The route partitioner *)

(** Modelled from the spec: [groupArray] of [./utils], which the builder
    imports and whose source is not at hand.  The spec asks for [numGroups]
    contiguous groups, in order, whose sizes differ by at most one, the
    larger ones first (ten routes over three workers: sizes 4, 3, 3), with
    empty trailing groups when there are more groups than routes.  It says
    nothing for fewer than one group: no group is made then. *)
Fixpoint groupArray_from {A} (arr : list A) (groups quotient remainder : nat)
    : list (list A) :=
  match groups with
  | 0 => []
  | S groups' =>
      let size := match remainder with 0 => quotient | S _ => S quotient end in
      firstn size arr
        :: groupArray_from (skipn size arr) groups' quotient (Nat.pred remainder)
  end.

(** Modelled from the spec: [groupArray(arr, numGroups)] of [./utils], the
    first [|arr| mod numGroups] groups taking one element more than the
    others. *)
Definition groupArray {A} (arr : list A) (numGroups : Z) : list (list A) :=
  let n := Z.to_nat numGroups in
  groupArray_from arr n (List.length arr / n) (List.length arr mod n).

(** ** The builder *)

Definition double_quote : string := String (Ascii.ascii_of_nat 34) EmptyString.
Definition newline : string := String (Ascii.ascii_of_nat 10) EmptyString.

(** What Node throws when [path.relative] is given [undefined]. *)
Definition invalid_from_argument : Error :=
  mkError ("The " ++ double_quote ++ "from" ++ double_quote
           ++ " argument must be of type string. Received undefined").

Definition Promise_map {A B} (f : A -> B) (p : Promise A) : Promise B :=
  mkPromise
    match state p with
    | Fulfilled a => Fulfilled (f a)
    | RejectedWith e => RejectedWith e
    | NeverSettles => NeverSettles
    end
    (settledAt p).

(** The promise made around a forked child: the first of ['exit'] and
    ['error'] that the child emits settles it. *)
Fixpoint exit_or_error (evs : list child_event) : settled unit :=
  match evs with
  | [] => NeverSettles
  | OnExit :: _ => Fulfilled tt
  | OnError e :: _ => RejectedWith e
  | OnMessage _ :: rest => exit_or_error rest
  end.

Definition child_promise (child : ChildProcess) : Promise ChildProcess :=
  Promise_map (fun _ => child) (mkPromise (exit_or_error (emits child)) (endsAt child)).

(** Lines 97-101 of [_scheduleBuilds]: the combined result of two builds. *)
Definition combine_results (browserResult serverResult : BuildBuilderOutput.t)
    : ScheduleBuildsOutput.t :=
  let success :=
    BuildBuilderOutput.success browserResult
    && BuildBuilderOutput.success serverResult
    && match BuildBuilderOutput.baseOutputPath browserResult with
       | Some _ => true
       | None => false
       end in
  let error :=
    or_string (BuildBuilderOutput.error browserResult)
              (BuildBuilderOutput.error serverResult) in
  ScheduleBuildsOutput.make success error (Some browserResult) (Some serverResult).

(** The worker count of [execute]. *)
Definition effective_numProcesses (options : PrerenderBuilderOptions) (cpus : Z)
    (routes : list string) : Z :=
  Z.min (or_number (numProcesses options) (cpus - 1)) (Z.of_nat (List.length routes)).

Section Builder.

Variable host : Host.

(** [context.scheduleTarget(target, overrides)]. *)
Definition context_scheduleTarget (t : Target) (overrides : ScheduleOptions)
    : M (Promise BuilderRun) :=
  fun h =>
    (Ok (Promise_map (mkRun (List.length h)) (scheduleTarget host h t overrides)),
     (h ++ [ScheduleTarget t overrides])%list).

(** [run.stop()]: the call is made, and returns a promise. *)
Definition stop (r : BuilderRun) : M (Promise unit) :=
  fun h => (Ok (stopped (job r) h), (h ++ [Stop (handle r)])%list).

(** Lines 79-89 of [_scheduleBuilds]: the two targets are parsed and
    scheduled, outside of the [try] statement. *)
Definition schedule_both (options : PrerenderBuilderOptions)
    : M (BuilderRun * BuilderRun) :=
  browserTarget <- call (targetFromTargetString host (browserTarget options)) ;;
  serverTarget <- call (targetFromTargetString host (serverTarget options)) ;;
  browserTargetRun <-
    (scheduled <- context_scheduleTarget browserTarget
                    (mkScheduleOptions false (Some false)) ;;
     await scheduled) ;;
  serverTargetRun <-
    (scheduled <- context_scheduleTarget serverTarget
                    (mkScheduleOptions false None) ;;
     await scheduled) ;;
  ret (browserTargetRun, serverTargetRun).

(** Lines 91-106: the [try] statement. *)
Definition await_builds (browserTargetRun serverTargetRun : BuilderRun)
    : M ScheduleBuildsOutput.t :=
  try_catch_finally
    (results <- await (Promise_all2 (result browserTargetRun)
                                    (result serverTargetRun)) ;;
     ret (combine_results (fst results) (snd results)))
    (fun e =>
       ret (ScheduleBuildsOutput.make false (Some (message e)) None None))
    (browserStop <- stop browserTargetRun ;;
     serverStop <- stop serverTargetRun ;;
     await (Promise_all2 browserStop serverStop) ;;;
     ret tt).

Definition _scheduleBuilds (options : PrerenderBuilderOptions)
    : M ScheduleBuildsOutput.t :=
  runs <- schedule_both options ;;
  await_builds (fst runs) (snd runs).

(** The ['message'] listener. *)
Definition on_message (data : WorkerReport) : M unit :=
  match data with
  | Rendered outputIndexPath bytes =>
      emit (LogInfo ("CREATE " ++ outputIndexPath ++ " ("
                     ++ decimal bytes ++ " bytes)"))
  | Failed outputIndexPath errorMessage =>
      emit (LogError ("Error: " ++ errorMessage)) ;;;
      emit (LogError ("Unable to render " ++ outputIndexPath))
  end.

(** The reports of one child reach the logger in the order the child
    sends them; those of one child are put before those of the next,
    which is one of the orders the runs of the children allow. *)
Fixpoint deliver (evs : list child_event) : M unit :=
  match evs with
  | [] => ret tt
  | OnMessage data :: rest => on_message data ;;; deliver rest
  | _ :: rest => deliver rest
  end.

(** The executor of one [new Promise]: fork the worker and listen to it.
    A [fork] that throws rejects the promise, as a child that emits
    ['error'] at once does. *)
Definition spawn (workerFile : string) (args : list string)
    : M (Promise ChildProcess) :=
  h <- now ;;
  let child := fork host h workerFile args in
  emit (Fork workerFile args child) ;;;
  deliver (emits child) ;;;
  ret (child_promise child).

Fixpoint Array_from {A B} (xs : list A) (f : A -> M B) : M (list B) :=
  match xs with
  | [] => ret []
  | x :: rest =>
      y <- f x ;;
      ys <- Array_from rest f ;;
      ret (y :: ys)
  end.

Definition _parallelRenderRoutes (groupedRoutes : list (list string))
    (indexHtml outputPath serverBundlePath : string)
    : M (list (Promise ChildProcess)) :=
  let workerFile := path_join host [dirname host; "render.js"] in
  Array_from groupedRoutes (fun routes =>
    spawn workerFile (indexHtml :: serverBundlePath :: outputPath :: routes)).

(** [path.relative(from, to)] where [from] may be [undefined]. *)
Definition relative (from : option string) (to : string) : M string :=
  match from with
  | Some f => ret (path_relative host f to)
  | None => throw invalid_from_argument
  end.

(** The server bundle that goes with an output path of the browser build
    (lines 161-163). *)
Definition bundle_path (serverResult : BuildBuilderOutput.t)
    (localeDirectory : string) : string :=
  let baseOutputPath :=
    match BuildBuilderOutput.baseOutputPath serverResult with
    | Some p => p
    | None => ""
    end in
  path_join host [baseOutputPath; localeDirectory; "main.js"].

(** The body of the loop of [_renderUniversal]. *)
Definition render_outputPath (routes : list string) (numProcesses : Z)
    (browserResult serverResult : BuildBuilderOutput.t) (outputPath : string)
    : M unit :=
  let browserIndexOutputPath := path_join host [outputPath; "index.html"] in
  h <- now ;;
  indexHtml <- call (readFileSync host h browserIndexOutputPath) ;;
  localeDirectory <-
    relative (BuildBuilderOutput.baseOutputPath browserResult) outputPath ;;
  let serverBundlePath := bundle_path serverResult localeDirectory in
  h <- now ;;
  if negb (existsSync host h serverBundlePath)
  then throw (mkError ("Could not find the main bundle: " ++ serverBundlePath))
  else
    let groupedRoutes := groupArray routes numProcesses in
    emit (LogInfo (newline ++ "Prerendering " ++ decimal (List.length routes)
                   ++ " route(s) to " ++ outputPath)) ;;;
    childProcesses <-
      _parallelRenderRoutes groupedRoutes indexHtml outputPath serverBundlePath ;;
    await (Promise_all childProcesses) ;;;
    ret tt.

Definition _renderUniversal (routes : list string) (numProcesses : Z)
    (browserResult serverResult : BuildBuilderOutput.t)
    : M BuildBuilderOutput.t :=
  for_of (BuildBuilderOutput.outputPaths browserResult)
         (render_outputPath routes numProcesses browserResult serverResult) ;;;
  ret browserResult.

Definition execute (options : PrerenderBuilderOptions)
    : M PrerenderBuilderOutput :=
  routes <- call (getRoutes host (workspaceRoot host) (routesFile options)
                            (routes options)) ;;
  if Nat.eqb (List.length routes) 0
  then throw (mkError "No routes found.")
  else
    result <- _scheduleBuilds options ;;
    match ScheduleBuildsOutput.success result,
          ScheduleBuildsOutput.browserResult result,
          ScheduleBuildsOutput.serverResult result with
    | true, Some browserResult, Some serverResult =>
        let numProcesses :=
          effective_numProcesses options (cpus_length host) routes in
        rendered <- _renderUniversal routes numProcesses browserResult serverResult ;;
        ret (BrowserOutput rendered)
    | success, _, _ =>
        ret (StatusOnly (BuilderOutput.make success
                           (ScheduleBuildsOutput.error result)))
    end.

End Builder.

(** ** Reading a run *)

(** The events a computation added to the history it started from. *)
Definition events_since {A} (h : history) (run : completion A * history) : list event :=
  skipn (List.length h) (snd run).

(** How often [stop()] was called on a handle. *)
Fixpoint stop_calls (handle : nat) (evs : list event) : nat :=
  match evs with
  | [] => 0
  | Stop k :: rest =>
      (if Nat.eqb k handle then 1 else 0) + stop_calls handle rest
  | _ :: rest => stop_calls handle rest
  end.

(** The server bundle each forked worker was given: its second argument. *)
Fixpoint forked_bundles (evs : list event) : list string :=
  match evs with
  | [] => []
  | Fork _ (_ :: serverBundlePath :: _) _ :: rest =>
      serverBundlePath :: forked_bundles rest
  | _ :: rest => forked_bundles rest
  end.

(** The children forked by a list of events. *)
Fixpoint forked (evs : list event) : list ChildProcess :=
  match evs with
  | [] => []
  | Fork _ _ child :: rest => child :: forked rest
  | _ :: rest => forked rest
  end.

(** The two builds have settled: [Promise.all] of their outputs is not
    pending for ever. *)
Definition builds_settle (browserRun serverRun : BuilderRun) : bool :=
  negb (is_pending (Promise_all2 (result browserRun) (result serverRun))).

(** Both [stop()] promises, made in the [finally] block entered with
    history [h], fulfil. *)
Definition released (browserRun serverRun : BuilderRun) (h : history) : bool :=
  match state (Promise_all2
                 (stopped (job browserRun) h)
                 (stopped (job serverRun) (h ++ [Stop (handle browserRun)])%list)) with
  | Fulfilled _ => true
  | _ => false
  end.

(** A computation aborts on a worker error when it only adds events to the
    history and, whenever one of the children it forked rejects its
    promise, it throws the error of a child it forked. *)
Definition aborts_on_worker_error {A} (m : M A) : Prop :=
  forall h, exists evs,
    snd (m h) = (h ++ evs)%list
    /\ ((exists child, In child (forked evs)
                       /\ is_rejected (child_promise child) = true) ->
        exists child' e,
          In child' (forked evs)
          /\ state (child_promise child') = RejectedWith e
          /\ fst (m h) = Throw e).

(** ** A host to run the builder on

    A stand-in for the architect context and for Node: targets are not
    looked up, routes come from the options alone, files are a list of
    names, and paths are absolute and normalised. *)
Module Sample.

Definition join (segments : list string) : string :=
  String.concat "/" (filter (fun s => negb (String.eqb s "")) segments).

Fixpoint strip_prefix (p s : string) : option string :=
  match p, s with
  | EmptyString, _ => Some s
  | String a p', String b s' =>
      if Ascii.eqb a b then strip_prefix p' s' else None
  | String _ _, EmptyString => None
  end.

Definition relative (from to : string) : string :=
  match strip_prefix (from ++ "/") to with
  | Some rest => rest
  | None => to
  end.

Definition parse_target (s : string) : Error + Target :=
  if String.eqb s "" then inl (mkError "Invalid target string.")
  else inr (mkTarget "app" s None).

Definition options : PrerenderBuilderOptions :=
  mkOptions "app:build" "app:server" None (Some ["/"; "/about"; "/contact"]) None.

Definition no_routes : PrerenderBuilderOptions :=
  mkOptions "app:build" "app:server" None None None.

Definition browserOutput : BuildBuilderOutput.t :=
  BuildBuilderOutput.make true None (Some "/dist/browser")
    ["/dist/browser/en"; "/dist/browser/fr"] "/dist/browser".

Definition serverOutput : BuildBuilderOutput.t :=
  BuildBuilderOutput.make true None (Some "/dist/server")
    ["/dist/server/en"; "/dist/server/fr"] "/dist/server".

Definition failedOutput : BuildBuilderOutput.t :=
  BuildBuilderOutput.make false (Some "Module not found.") (Some "/dist/browser")
    [] "/dist/browser".

(** A scheduled build whose output promise has the given fate and whose
    [stop()] fulfils. *)
Definition scheduled (fate : settled BuildBuilderOutput.t) : Promise Job :=
  mkPromise (Fulfilled (mkJob (mkPromise fate 5) (fun _ => mkPromise (Fulfilled tt) 6))) 1.

Definition not_scheduled (reason : string) : Promise Job :=
  mkPromise (RejectedWith (mkError reason)) 1.

Definition all_files : list string :=
  ["/dist/browser/en/index.html"; "/dist/browser/fr/index.html";
   "/dist/server/en/main.js"; "/dist/server/fr/main.js"].

Definition worker_exits : ChildProcess :=
  mkChild [OnMessage (Rendered "/dist/browser/en/index.html" 1024); OnExit] 9.

Definition worker_errors : ChildProcess :=
  mkChild [OnError (mkError "spawn ENOMEM")] 9.

Definition host (browser server : Promise Job) (files : list string)
    (child : ChildProcess) (cpus : Z) : Host :=
  mkHost
    parse_target
    (fun _ t _ => if String.eqb (target t) "app:build" then browser else server)
    "/workspace"
    (fun _ _ explicit => inr match explicit with Some rs => rs | None => [] end)
    cpus
    (fun _ file =>
       if existsb (String.eqb file) files then inr "<app-root></app-root>"
       else inl (mkError ("ENOENT: no such file or directory, open " ++ file)))
    (fun _ file => existsb (String.eqb file) files)
    (fun _ _ _ => child)
    join
    relative
    "/node_modules/builders/prerender".

(** Both builds succeed, every file is there, every worker exits. *)
Definition healthy : Host :=
  host (scheduled (Fulfilled browserOutput)) (scheduled (Fulfilled serverOutput))
       all_files worker_exits 8.

(** The server build throws while it runs. *)
Definition server_crashes : Host :=
  host (scheduled (Fulfilled browserOutput))
       (scheduled (RejectedWith (mkError "Server build crashed.")))
       all_files worker_exits 8.

(** The browser target is not known to the workspace. *)
Definition browser_not_scheduled : Host :=
  host (not_scheduled "Project target does not exist.")
       (scheduled (Fulfilled serverOutput)) all_files worker_exits 8.

(** The server target is not known to the workspace. *)
Definition server_not_scheduled : Host :=
  host (scheduled (Fulfilled browserOutput))
       (not_scheduled "Project target does not exist.") all_files worker_exits 8.

(** The browser build reports a failure. *)
Definition browser_fails : Host :=
  host (scheduled (Fulfilled failedOutput)) (scheduled (Fulfilled serverOutput))
       all_files worker_exits 8.

(** The server bundle of the second locale is not on disk. *)
Definition bundle_missing : Host :=
  host (scheduled (Fulfilled browserOutput)) (scheduled (Fulfilled serverOutput))
       ["/dist/browser/en/index.html"; "/dist/browser/fr/index.html";
        "/dist/server/en/main.js"]
       worker_exits 8.

(** No worker can be spawned. *)
Definition worker_fails : Host :=
  host (scheduled (Fulfilled browserOutput)) (scheduled (Fulfilled serverOutput))
       all_files worker_errors 8.

(** The server build gives no [baseOutputPath]. *)
Definition serverOutput_without_base : BuildBuilderOutput.t :=
  BuildBuilderOutput.with_baseOutputPath serverOutput None.

Definition server_base_undefined : Host :=
  host (scheduled (Fulfilled browserOutput))
       (scheduled (Fulfilled serverOutput_without_base))
       ["/dist/browser/en/index.html"; "/dist/browser/fr/index.html"]
       worker_exits 8.

End Sample.

(** ** Reading a run, continued *)


(** The [fork] calls of a list of events: the module and the arguments. *)
Fixpoint forked_calls (evs : list event) : list (string * list string) :=
  match evs with
  | [] => []
  | Fork modulePath args _ :: rest => (modulePath, args) :: forked_calls rest
  | _ :: rest => forked_calls rest
  end.

(** The child has emitted ['exit'] before any ['error']. *)
Definition exited (child : ChildProcess) : Prop :=
  exit_or_error (emits child) = Fulfilled tt.


(** A computation returns only after every child it forked has exited. *)
Definition returns_after_exits {A} (m : M A) : Prop :=
  forall h, exists evs,
    snd (m h) = (h ++ evs)%list
    /\ ((exists a, fst (m h) = Ok a) -> Forall exited (forked evs)).

(** ** More hosts to run the builder on *)
Module Scenario.

(** A scheduled build whose output fulfils and whose [stop()] rejects. *)
Definition scheduled_unstoppable (out : BuildBuilderOutput.t) : Promise Job :=
  mkPromise
    (Fulfilled (mkJob (mkPromise (Fulfilled out) 5)
                      (fun _ => mkPromise (RejectedWith (mkError "Job already stopped.")) 6)))
    1.

(** The browser run cannot be stopped. *)
Definition stop_rejects : Host :=
  Sample.host (scheduled_unstoppable Sample.browserOutput)
              (Sample.scheduled (Fulfilled Sample.serverOutput))
              Sample.all_files Sample.worker_exits 8.

(** The server build never finishes. *)
Definition server_hangs : Host :=
  Sample.host (Sample.scheduled (Fulfilled Sample.browserOutput))
              (Sample.scheduled NeverSettles)
              Sample.all_files Sample.worker_exits 8.

(** The browser build reports an empty error, the server build a message. *)
Definition quietFailure : BuildBuilderOutput.t :=
  BuildBuilderOutput.make false (Some "") (Some "/dist/browser") [] "/dist/browser".

Definition serverFailure : BuildBuilderOutput.t :=
  BuildBuilderOutput.make false (Some "Cannot resolve main.server.ts.")
    (Some "/dist/server") [] "/dist/server".

Definition both_fail : Host :=
  Sample.host (Sample.scheduled (Fulfilled quietFailure))
              (Sample.scheduled (Fulfilled serverFailure))
              Sample.all_files Sample.worker_exits 8.

(** Options whose server target string does not parse. *)
Definition bad_server_target : PrerenderBuilderOptions :=
  mkOptions "app:build" "" None (Some ["/"; "/about"; "/contact"]) None.

(** A worker that reports one rendered route and one failed route, then
    exits. *)
Definition worker_reports_failure : ChildProcess :=
  mkChild [OnMessage (Rendered "/dist/browser/en/index.html" 1024);
           OnMessage (Failed "/dist/browser/en/about/index.html"
                             "Cannot match any routes.");
           OnExit] 9.

Definition route_fails : Host :=
  Sample.host (Sample.scheduled (Fulfilled Sample.browserOutput))
              (Sample.scheduled (Fulfilled Sample.serverOutput))
              Sample.all_files worker_reports_failure 8.

(** The index document of the second locale is not on disk. *)
Definition index_missing : Host :=
  Sample.host (Sample.scheduled (Fulfilled Sample.browserOutput))
              (Sample.scheduled (Fulfilled Sample.serverOutput))
              ["/dist/browser/en/index.html";
               "/dist/server/en/main.js"; "/dist/server/fr/main.js"]
              Sample.worker_exits 8.

(** The browser build succeeds but gives no [baseOutputPath]. *)
Definition browserOutput_without_base : BuildBuilderOutput.t :=
  BuildBuilderOutput.with_baseOutputPath Sample.browserOutput None.

Definition browser_base_undefined : Host :=
  Sample.host (Sample.scheduled (Fulfilled browserOutput_without_base))
              (Sample.scheduled (Fulfilled Sample.serverOutput))
              Sample.all_files Sample.worker_exits 8.

End Scenario.

(** ** The install schematic: looking up imports and router options

    The functions of the schematic that work on the syntax tree of a
    source file, over the part of the TypeScript tree they read. *)
Module Install.

(** An element of [import { a, b as c } from '...']: [propertyName] is the
    name before [as], when there is one; [name] is the local name. *)
Record ImportSpecifier : Type := mkImportSpecifier {
  propertyName : option string;
  name : string
}.

Record NamedImports : Type := mkNamedImports {
  elements : list ImportSpecifier
}.

(** [import * as ns] or [import { ... }]. *)
Inductive NamedImportBindings : Type :=
| NamespaceImport (local : string)
| IsNamedImports (imports : NamedImports).

Record ImportClause : Type := mkImportClause {
  defaultName : option string;
  namedBindings : option NamedImportBindings
}.

(** The name of a property of an object literal. *)
Inductive PropertyName : Type :=
| Identifier (text : string)
| StringLiteralName (text : string)
| NumericLiteralName (text : string)
| ComputedPropertyName (source : string).

(** Expressions. An argument of a call is [None] where the array handed to
    [ts.createCall] holds [undefined]; the parser makes no such node. *)
Inductive Expression : Type :=
| IdentifierExpression (text : string)
| StringLiteral (text : string)
| ObjectLiteralExpression (properties : list ObjectLiteralElementLike) (multiLine : bool)
| Call (call : CallExpression)
| PropertyAccessExpression (object : Expression) (member : string)
| OtherExpression (source : string)
with ObjectLiteralElementLike : Type :=
| PropertyAssignment (key : PropertyName) (initializer : Expression)
| ShorthandPropertyAssignment (key : string)
| SpreadAssignment (spread : Expression)
| MethodDeclaration (key : PropertyName)
| AccessorDeclaration (key : PropertyName)
with CallExpression : Type :=
| mkCallExpression (callee : Expression) (typeArgs : option (list string))
                   (args : list (option Expression)).

Definition expression (node : CallExpression) : Expression :=
  match node with mkCallExpression callee _ _ => callee end.

Definition typeArguments (node : CallExpression) : option (list string) :=
  match node with mkCallExpression _ typeArgs _ => typeArgs end.

Definition arguments (node : CallExpression) : list (option Expression) :=
  match node with mkCallExpression _ _ args => args end.

(** [array[i]]: [undefined] past the end. *)
Definition at_index (array : list (option Expression)) (i : nat) : option Expression :=
  match nth_error array i with
  | Some element => element
  | None => None
  end.

(** A top-level statement: an import declaration, whose module specifier is
    an expression, or anything else. *)
Inductive Statement : Type :=
| ImportDeclaration (importClause : option ImportClause) (moduleSpecifier : Expression)
| OtherStatement (source : string).

Record SourceFile : Type := mkSourceFile {
  fileName : string;
  statements : list Statement
}.

(** Lines 127-132. *)
Definition findImportSpecifier (elements : list ImportSpecifier) (importName : string)
    : option ImportSpecifier :=
  find (fun element =>
          match propertyName element with
          | Some original => String.eqb original importName
          | None => String.eqb (name element) importName
          end)
       elements.

(** Lines 138-155, on the statements still to visit. *)
Fixpoint findImport_from (nodes : list Statement) (moduleName symbolName : string)
    : option NamedImports :=
  match nodes with
  | [] => None
  | ImportDeclaration importClause (StringLiteral text) :: rest =>
      if String.eqb text moduleName then
        match importClause with
        | Some {| namedBindings := Some (IsNamedImports imports) |} =>
            match findImportSpecifier (elements imports) symbolName with
            | Some _ => Some imports
            | None => findImport_from rest moduleName symbolName
            end
        | _ => findImport_from rest moduleName symbolName
        end
      else findImport_from rest moduleName symbolName
  | _ :: rest => findImport_from rest moduleName symbolName
  end.

Definition findImport (sourceFile : SourceFile) (moduleName symbolName : string)
    : option NamedImports :=
  findImport_from (statements sourceFile) moduleName symbolName.

(** The test of line 175-177 on one property of the options. *)
Definition is_initialNavigation (exp : ObjectLiteralElementLike) : bool :=
  match exp with
  | PropertyAssignment (Identifier text) _ => String.eqb text "initialNavigation"
  | _ => false
  end.

(** [ts.createPropertyAssignment('initialNavigation',
    ts.createStringLiteral('enabled'))]. *)
Definition initialNavigationProperty : ObjectLiteralElementLike :=
  PropertyAssignment (Identifier "initialNavigation") (StringLiteral "enabled").

(** [ts.updateObjectLiteral(node, properties)]: an object literal with the
    given properties, laid out as [node] is. *)
Definition updateObjectLiteral (existing : list ObjectLiteralElementLike)
    (existingMultiLine : bool) (properties : list ObjectLiteralElementLike)
    : Expression :=
  ObjectLiteralExpression properties existingMultiLine.

(** What reading [properties.find] throws on a second argument that is not
    an object literal and so has no [properties]; the wording is the
    engine's. *)
Definition properties_undefined : Error :=
  mkError "Cannot read property 'find' of undefined".

(** Lines 171-188. *)
Definition addInitialNavigation (node : CallExpression) : Error + CallExpression :=
  let existingOptions := at_index (arguments node) 1 in
  match existingOptions with
  | Some (ObjectLiteralExpression properties multiLine) =>
      if existsb is_initialNavigation properties then inr node
      else
        let routerOptions :=
          updateObjectLiteral properties multiLine [initialNavigationProperty] in
        inr (mkCallExpression (expression node) (typeArguments node)
                              [at_index (arguments node) 0; Some routerOptions])
  | Some _ => inl properties_undefined
  | None =>
      let routerOptions := ObjectLiteralExpression [initialNavigationProperty] true in
      inr (mkCallExpression (expression node) (typeArguments node)
                            [at_index (arguments node) 0; Some routerOptions])
  end.

(** The name an import specifier imports: the one before [as], or the only
    one. *)
Definition importedName (element : ImportSpecifier) : string :=
  match propertyName element with
  | Some original => original
  | None => name element
  end.

(** [import { NgModule } from '@angular/core';]
    [import { Routes, RouterModule as Router } from '@angular/router';] *)
Definition routing_module : SourceFile :=
  mkSourceFile "src/app/app-routing.module.ts"
    [ImportDeclaration
       (Some (mkImportClause None
                (Some (IsNamedImports
                         (mkNamedImports [mkImportSpecifier None "NgModule"])))))
       (StringLiteral "@angular/core");
     ImportDeclaration
       (Some (mkImportClause None
                (Some (IsNamedImports
                         (mkNamedImports
                            [mkImportSpecifier None "Routes";
                             mkImportSpecifier (Some "RouterModule") "Router"])))))
       (StringLiteral "@angular/router");
     OtherStatement "const routes: Routes = [];"].

(** [RouterModule.forRoot(routes, { useHash: true })]. *)
Definition forRoot_with_options : CallExpression :=
  mkCallExpression
    (PropertyAccessExpression (IdentifierExpression "RouterModule") "forRoot")
    None
    [Some (IdentifierExpression "routes");
     Some (ObjectLiteralExpression
             [PropertyAssignment (Identifier "useHash") (OtherExpression "true")]
             false)].

End Install.

(** * Properties *)

Local Open Scope list_scope.

(** ** The route partitioner *)

Section GroupArray.

Variable A : Type.

Lemma groupArray_from_spec :
  forall (groups : nat) (arr : list A) (q r : nat),
    r <= groups ->
    List.length arr = groups * q + r ->
    List.concat (groupArray_from arr groups q r) = arr
    /\ List.length (groupArray_from arr groups q r) = groups
    /\ Forall (fun g => List.length g = q \/ (List.length g = S q /\ 0 < r))
              (groupArray_from arr groups q r).
Proof.
  induction groups as [|k IH]; intros arr q r Hr Hlen.
  - simpl in *. assert (r = 0) by lia. subst r.
    destruct arr; [auto | discriminate].
  - cbn [groupArray_from].
    set (size := match r with 0 => q | S _ => S q end).
    assert (Hsize : size <= List.length arr) by (subst size; destruct r; nia).
    assert (Hrest : List.length (skipn size arr) = k * q + Nat.pred r).
    { rewrite length_skipn. subst size. destruct r; simpl; nia. }
    destruct (IH (skipn size arr) q (Nat.pred r) ltac:(lia) Hrest)
      as (Hcat & Hn & Hall).
    split; [|split].
    + cbn [List.concat]. rewrite Hcat. apply firstn_skipn.
    + cbn [List.length]. now rewrite Hn.
    + constructor.
      * rewrite length_firstn, Nat.min_l by exact Hsize.
        subst size. destruct r; [left | right]; auto with arith.
      * eapply Forall_impl; [|exact Hall].
        intros g [Hg | [Hg Hpos]]; [left | right; split]; auto; lia.
Qed.

Lemma ceil_div (len n : nat) :
  0 < n ->
  (len + n - 1) / n = if Nat.eqb (len mod n) 0 then len / n else S (len / n).
Proof.
  intros Hn.
  pose proof (Nat.div_mod_eq len n) as Hdm.
  pose proof (Nat.mod_upper_bound len n ltac:(lia)) as Hlt.
  destruct (Nat.eqb_spec (len mod n) 0) as [Hz | Hnz].
  - symmetry. apply Nat.div_unique with (r := n - 1); lia.
  - symmetry. apply Nat.div_unique with (r := len mod n - 1); nia.
Qed.

End GroupArray.

Example groupArray_ten_routes_three_workers :
  groupArray ["/a"; "/b"; "/c"; "/d"; "/e"; "/f"; "/g"; "/h"; "/i"; "/j"]%string 3
  = [["/a"; "/b"; "/c"; "/d"]; ["/e"; "/f"; "/g"]; ["/h"; "/i"; "/j"]]%string.
Proof. reflexivity. Qed.

(** C1. For a route list [R] and a worker count [N] with [1 <= N <= |R|],
    the groups of [groupArray R N], concatenated in order, are [R]; there
    are [N] of them; each has [floor(|R|/N)] or [ceil(|R|/N)] elements; and
    the sizes of two groups differ by at most one. *)
Theorem groupArray_partitions_routes :
  forall (A : Type) (R : list A) (N : Z),
    (1 <= N <= Z.of_nat (List.length R))%Z ->
    List.concat (groupArray R N) = R
    /\ Z.of_nat (List.length (groupArray R N)) = N
    /\ (forall g, In g (groupArray R N) ->
          Z.of_nat (List.length g) = (Z.of_nat (List.length R) / N)%Z
          \/ Z.of_nat (List.length g) = ((Z.of_nat (List.length R) + N - 1) / N)%Z)
    /\ (forall g g', In g (groupArray R N) -> In g' (groupArray R N) ->
          (Z.abs (Z.of_nat (List.length g) - Z.of_nat (List.length g')) <= 1)%Z).
Proof.
  intros A R N HN. unfold groupArray.
  set (n := Z.to_nat N). set (len := List.length R).
  assert (Hn : 0 < n) by (subst n; lia).
  assert (HNn : N = Z.of_nat n) by (subst n; lia).
  pose proof (Nat.mod_upper_bound len n ltac:(lia)) as Hlt.
  destruct (@groupArray_from_spec A n R (len / n) (len mod n)) as (Hcat & Hcount & Hall).
  { lia. }
  { apply Nat.div_mod_eq. }
  rewrite Forall_forall in Hall.
  assert (Hfloor : (Z.of_nat len / N)%Z = Z.of_nat (len / n))
    by (rewrite HNn; symmetry; apply Nat2Z.inj_div).
  assert (Hceil : ((Z.of_nat len + N - 1) / N)%Z = Z.of_nat ((len + n - 1) / n)).
  { rewrite HNn, Nat2Z.inj_div. f_equal. lia. }
  split; [exact Hcat | split; [lia | split]].
  - intros g Hg. rewrite Hfloor, Hceil, ceil_div by exact Hn.
    destruct (Hall g Hg) as [Hq | [Hq Hpos]].
    + left. now rewrite Hq.
    + right. destruct (Nat.eqb_spec (len mod n) 0); [lia | now rewrite Hq].
  - intros g g' Hg Hg'.
    destruct (Hall g Hg) as [Hq | [Hq _]], (Hall g' Hg') as [Hq' | [Hq' _]]; lia.
Qed.

Lemma groupArray_partitions_routes_witness :
  let R := ["/"; "/about"; "/contact"; "/docs"; "/blog"]%string in
  (1 <= 2 <= Z.of_nat (List.length R))%Z
  /\ List.concat (groupArray R 2) = R.
Proof.
  intro R. split.
  - subst R. simpl. lia.
  - apply (@groupArray_partitions_routes string R 2). subst R. simpl. lia.
Defined.

(** ** The build scheduler *)

Section BuildScheduler.

Variable host : Host.
Variable options : PrerenderBuilderOptions.

(** Scheduling adds the two [scheduleTarget] calls to the history and
    names the runs after their position in it. *)
Lemma schedule_both_ok :
  forall h h1 browserRun serverRun,
    schedule_both host options h = (Ok (browserRun, serverRun), h1) ->
    exists bt st o1 o2,
      h1 = h ++ [ScheduleTarget bt o1; ScheduleTarget st o2]
      /\ handle browserRun = List.length h
      /\ handle serverRun = S (List.length h).
Proof.
  intros h h1 b s. unfold schedule_both, bind, call, context_scheduleTarget, await.
  destruct (targetFromTargetString host (browserTarget options)) as [e|bt];
    [discriminate|].
  destruct (targetFromTargetString host (serverTarget options)) as [e|st];
    [discriminate|].
  cbn.
  destruct (state (scheduleTarget host h bt _)) as [jb|e|]; try discriminate.
  cbn.
  destruct (state (scheduleTarget host _ st _)) as [js|e|]; try discriminate.
  cbn. intros H. injection H as <- <- <-.
  exists bt, st, (mkScheduleOptions false (Some false)), (mkScheduleOptions false None).
  rewrite <- app_assoc. cbn. rewrite length_app. cbn.
  repeat split; lia.
Qed.

(** The [try] statement, case by case. *)
Lemma await_builds_run :
  forall b s h,
    await_builds b s h =
    match state (Promise_all2 (result b) (result s)) with
    | NeverSettles => (Hang, h)
    | settled_builds =>
        let out :=
          match settled_builds with
          | Fulfilled results => combine_results (fst results) (snd results)
          | RejectedWith e =>
              ScheduleBuildsOutput.make false (Some (message e)) None None
          | NeverSettles => ScheduleBuildsOutput.make false None None None
          end in
        let h2 := h ++ [Stop (handle b); Stop (handle s)] in
        match state (Promise_all2 (stopped (job b) h)
                                  (stopped (job s) (h ++ [Stop (handle b)]))) with
        | Fulfilled _ => (Ok out, h2)
        | RejectedWith e => (Throw e, h2)
        | NeverSettles => (Hang, h2)
        end
    end.
Proof.
  intros b s h.
  unfold await_builds, try_catch_finally, bind, await, stop, ret.
  destruct (state (Promise_all2 (result b) (result s))) as [[br sr]|e|]; cbn;
    rewrite <- ?app_assoc; cbn;
    try destruct (state (Promise_all2 (stopped (job b) h)
                                      (stopped (job s) (h ++ [Stop (handle b)]))));
    reflexivity.
Qed.

Lemma scheduleBuilds_scheduled :
  forall h h1 b s,
    schedule_both host options h = (Ok (b, s), h1) ->
    _scheduleBuilds host options h = await_builds b s h1.
Proof.
  intros h h1 b s H. unfold _scheduleBuilds, bind. now rewrite H.
Qed.

End BuildScheduler.

Lemma Promise_all2_fulfilled :
  forall (A B : Type) (p : Promise A) (q : Promise B) (a : A) (b : B),
    state (Promise_all2 p q) = Fulfilled (a, b)
    <-> state p = Fulfilled a /\ state q = Fulfilled b.
Proof.
  intros A B p q a b. unfold Promise_all2.
  destruct (state p) as [a'|e|], (state q) as [b'|e'|]; cbn;
    try destruct (Nat.leb _ _); cbn;
    split; try discriminate; try (intros [? ?]; discriminate).
  - intros H. injection H as -> ->. auto.
  - intros [H1 H2]. injection H1 as ->. injection H2 as ->. reflexivity.
Qed.

Lemma skipn_length_app :
  forall (A : Type) (l l' : list A), skipn (List.length l) (l ++ l') = l'.
Proof. induction l; cbn; auto. Qed.

(** C2. Once both targets are scheduled, the builds have settled and the
    runs are released, [_scheduleBuilds] returns, and the [success] flag it
    returns is [true] exactly when the browser build fulfilled with
    [success], the server build fulfilled with [success], and the browser
    output has a [baseOutputPath]; the flag is [false] in every other case. *)
Theorem scheduleBuilds_success_iff :
  forall host options h h1 browserRun serverRun,
    schedule_both host options h = (Ok (browserRun, serverRun), h1) ->
    builds_settle browserRun serverRun = true ->
    released browserRun serverRun h1 = true ->
    exists out,
      _scheduleBuilds host options h
      = (Ok out, h1 ++ [Stop (handle browserRun); Stop (handle serverRun)])
      /\ (ScheduleBuildsOutput.success out = true <->
          exists browserResult serverResult,
            state (result browserRun) = Fulfilled browserResult
            /\ state (result serverRun) = Fulfilled serverResult
            /\ BuildBuilderOutput.success browserResult = true
            /\ BuildBuilderOutput.success serverResult = true
            /\ BuildBuilderOutput.baseOutputPath browserResult <> None).
Proof.
  intros host options h h1 b s Hsched Hsettle Hrel.
  rewrite (scheduleBuilds_scheduled _ _ _ Hsched), await_builds_run.
  unfold builds_settle, is_pending in Hsettle. unfold released in Hrel.
  destruct (state (Promise_all2 (stopped (job b) h1) _)) as [u|e|];
    try discriminate.
  destruct (state (Promise_all2 (result b) (result s))) as [[br sr]|e|] eqn:Hall;
    try discriminate; cbn.
  - eexists. split; [reflexivity|].
    apply Promise_all2_fulfilled in Hall. destruct Hall as [Hb Hs].
    cbn. rewrite !andb_true_iff. split.
    + intros [[H1 H2] H3]. exists br, sr. repeat split; auto.
      destruct (BuildBuilderOutput.baseOutputPath br); congruence.
    + intros (br' & sr' & Hb' & Hs' & H1 & H2 & H3).
      assert (br' = br) by congruence. assert (sr' = sr) by congruence.
      subst. repeat split; auto.
      destruct (BuildBuilderOutput.baseOutputPath br); congruence.
  - eexists. split; [reflexivity|]. cbn. split.
    + discriminate.
    + intros (br & sr & Hb & Hs & _).
      assert (H : state (Promise_all2 (result b) (result s)) = Fulfilled (br, sr))
        by (apply Promise_all2_fulfilled; auto).
      congruence.
Qed.

Lemma scheduleBuilds_success_iff_witness :
  exists out,
    fst (_scheduleBuilds Sample.healthy Sample.options []) = Ok out
    /\ ScheduleBuildsOutput.success out = true.
Proof.
  destruct (@scheduleBuilds_success_iff Sample.healthy Sample.options []
              _ _ _ eq_refl eq_refl eq_refl) as (out & Hrun & Hiff).
  exists out. split.
  - rewrite Hrun. reflexivity.
  - apply Hiff. exists Sample.browserOutput, Sample.serverOutput.
    repeat split; try reflexivity. discriminate.
Defined.

(** C3, as the code has it. Once both targets are scheduled, an exception
    raised while the two build outputs are awaited is not propagated: when
    the two [stop()] promises fulfil, [_scheduleBuilds] returns a failure
    whose error is the message of that exception. *)
Theorem scheduleBuilds_catches_build_exception :
  forall host options h h1 browserRun serverRun e,
    schedule_both host options h = (Ok (browserRun, serverRun), h1) ->
    state (Promise_all2 (result browserRun) (result serverRun)) = RejectedWith e ->
    released browserRun serverRun h1 = true ->
    _scheduleBuilds host options h
    = (Ok (ScheduleBuildsOutput.make false (Some (message e)) None None),
       h1 ++ [Stop (handle browserRun); Stop (handle serverRun)]).
Proof.
  intros host options h h1 b s e Hsched Hall Hrel.
  rewrite (scheduleBuilds_scheduled _ _ _ Hsched), await_builds_run, Hall.
  unfold released in Hrel. cbn.
  destruct (state (Promise_all2 (stopped (job b) h1) _)); try discriminate.
  reflexivity.
Qed.

Lemma scheduleBuilds_catches_build_exception_witness :
  fst (_scheduleBuilds
Sample.server_crashes Sample.options [])
  = Ok (ScheduleBuildsOutput.make false (Some "Server build crashed."%string) None None).
Proof.
  rewrite (@scheduleBuilds_catches_build_exception
             Sample.server_crashes Sample.options [] _ _ _
             (mkError "Server build crashed.") eq_refl eq_refl eq_refl).
  reflexivity.
Defined.

(** C3, as the spec has it, fails: an exception raised while a target is
    scheduled leaves [_scheduleBuilds] as an exception. *)
Lemma scheduleBuilds_propagates_scheduling_exception :
  fst (_scheduleBuilds
Sample.browser_not_scheduled Sample.options [])
  = Throw (mkError "Project target does not exist.").
Proof. reflexivity. Qed.

(** C4, as the code has it. Once both targets are scheduled and the builds
    have settled - fulfilled, with success or with failure, or rejected -
    [_scheduleBuilds] calls [stop()] once on the browser run and once on the
    server run, whatever becomes of the two [stop()] promises. *)
Theorem scheduleBuilds_stops_both_once :
  forall host options h h1 browserRun serverRun,
    schedule_both host options h = (Ok (browserRun, serverRun), h1) ->
    builds_settle browserRun serverRun = true ->
    snd (_scheduleBuilds host options h)
    = h1 ++ [Stop (handle browserRun); Stop (handle serverRun)]
    /\ handle browserRun <> handle serverRun
    /\ stop_calls (handle browserRun)
         (events_since h (_scheduleBuilds host options h)) = 1
    /\ stop_calls (handle serverRun)
         (events_since h (_scheduleBuilds host options h)) = 1.
Proof.
  intros host options h h1 b s Hsched Hsettle.
  assert (Hsnd : snd (_scheduleBuilds host options h)
                 = h1 ++ [Stop (handle b); Stop (handle s)]).
  { rewrite (scheduleBuilds_scheduled _ _ _ Hsched), await_builds_run.
    unfold builds_settle, is_pending in Hsettle.
    destruct (state (Promise_all2 (result b) (result s))); try discriminate; cbn;
      destruct (state (Promise_all2 (stopped (job b) h1) _)); reflexivity. }
  destruct (schedule_both_ok _ _ _ Hsched) as (bt & st & o1 & o2 & Hh1 & Hb & Hs).
  split; [exact Hsnd|]. split; [lia|].
  unfold events_since. rewrite Hsnd, Hh1, <- app_assoc, skipn_length_app, Hb, Hs.
  cbn [stop_calls app]. rewrite !Nat.eqb_refl.
  destruct (Nat.eqb_spec (S (List.length h)) (List.length h)) as [Habs|_]; [lia|].
  destruct (Nat.eqb_spec (List.length h) (S (List.length h))) as [Habs|_]; [lia|].
  split; reflexivity.
Qed.

Lemma scheduleBuilds_stops_both_once_witness :
  stop_calls 0 (events_since [] (_scheduleBuilds Sample.healthy Sample.options [])) = 1
  /\ stop_calls 1 (events_since [] (_scheduleBuilds Sample.healthy Sample.options [])) = 1.
Proof.
  destruct (@scheduleBuilds_stops_both_once Sample.healthy Sample.options []
              _ _ _ eq_refl eq_refl) as (_ & _ & Hb & Hs).
  split; [exact Hb | exact Hs].
Defined.

(** C4, as the spec has it, fails: when the server target cannot be
    scheduled, the exception leaves [_scheduleBuilds] and the browser run,
    which was scheduled, is never stopped. *)
Lemma scheduleBuilds_leaves_browser_run_unstopped :
  let run := _scheduleBuilds Sample.server_not_scheduled Sample.options [] in
  fst run = Throw (mkError "Project target does not exist.")
  /\ events_since [] run
     = [ScheduleTarget (mkTarget "app" "app:build" None)
                       (mkScheduleOptions false (Some false));
        ScheduleTarget (mkTarget "app" "app:server" None)
                       (mkScheduleOptions false None)]
  /\ stop_calls 0 (events_since [] run) = 0.
Proof. repeat split. Qed.

(** ** The orchestration *)

(** C5, as the code has it. For a route list that is not empty: with a
    configured count of at least 1 the worker count is that count capped at
    the number of routes, and it is at least 1; with no configured count it
    is the number of processing units minus one, capped at the number of
    routes, and it is at least 1 when there are two processing units or
    more. *)
Theorem effective_numProcesses_policy :
  forall options cpus (routes : list string),
    routes <> [] ->
    (forall c, numProcesses options = Some c -> (1 <= c)%Z ->
       effective_numProcesses options cpus routes
       = Z.min c (Z.of_nat (List.length routes))
       /\ (1 <= effective_numProcesses options cpus routes)%Z)
    /\ (numProcesses options = None ->
        effective_numProcesses options cpus routes
        = Z.min (cpus - 1) (Z.of_nat (List.length routes))
        /\ ((2 <= cpus)%Z ->
            (1 <= effective_numProcesses options cpus routes)%Z)).
Proof.
  intros options cpus routes Hroutes.
  assert (Hlen : (1 <= Z.of_nat (List.length routes))%Z)
    by (destruct routes; [congruence | cbn [List.length]; lia]).
  unfold effective_numProcesses, or_number. split.
  - intros c -> Hc. destruct (Z.eqb_spec c 0); lia.
  - intros ->. split; [reflexivity | lia].
Qed.

Lemma effective_numProcesses_policy_witness :
  effective_numProcesses Sample.options 8 ["/"; "/about"; "/contact"]%string = 3%Z
  /\ effective_numProcesses
       (mkOptions "app:build" "app:server" None None (Some 2%Z)) 8
       ["/"; "/about"; "/contact"]%string = 2%Z.
Proof.
  split.
  - destruct (@effective_numProcesses_policy Sample.options 8
                ["/"; "/about"; "/contact"]%string ltac:(discriminate))
      as [_ Hdefault].
    destruct (Hdefault eq_refl) as [Heq _]. rewrite Heq. reflexivity.
  - destruct (@effective_numProcesses_policy
                (mkOptions "app:build" "app:server" None None (Some 2%Z)) 8
                ["/"; "/about"; "/contact"]%string ltac:(discriminate))
      as [Hconfigured _].
    destruct (Hconfigured 2%Z eq_refl ltac:(lia)) as [Heq _].
    rewrite Heq. reflexivity.
Defined.

(** C5, as the spec has it, fails: on a machine with one processing unit
    and no configured count, the worker count for one route is 0. *)
Lemma effective_numProcesses_can_be_zero :
  Sample.options.(numProcesses) = None
  /\ effective_numProcesses Sample.options 1 ["/"]%string = 0%Z
  /\ ~ (1 <= effective_numProcesses Sample.options 1 ["/"]%string)%Z.
Proof. repeat split. cbn. lia. Qed.

Lemma skipn_length_self :
  forall (A : Type) (l : list A), skipn (List.length l) l = [].
Proof. induction l; cbn; auto. Qed.

(** C6. When the resolved route list is empty, [execute] throws
    ['No routes found.'] and has made no call on its host: no build was
    scheduled. *)
Theorem execute_fails_without_routes :
  forall host options h,
    getRoutes host (workspaceRoot host) (routesFile options) (routes options)
    = inr [] ->
    execute host options h = (Throw (mkError "No routes found."), h)
    /\ events_since h (execute host options h) = [].
Proof.
  intros host options h Hroutes.
  assert (Hrun : execute host options h = (Throw (mkError "No routes found."), h)).
  { unfold execute, bind, call. rewrite Hroutes. reflexivity. }
  split; [exact Hrun|].
  unfold events_since. rewrite Hrun. apply skipn_length_self.
Qed.

Lemma execute_fails_without_routes_witness :
  execute Sample.healthy Sample.no_routes []
  = (Throw (mkError "No routes found."), []).
Proof.
  apply (@execute_fails_without_routes Sample.healthy Sample.no_routes []).
  reflexivity.
Defined.

Section Orchestration.

Variable host : Host.
Variable options : PrerenderBuilderOptions.

Lemma schedule_both_events :
  forall h c h1,
    schedule_both host options h = (c, h1) ->
    exists evs, h1 = h ++ evs /\ forked evs = [].
Proof.
  intros h c h1. unfold schedule_both, bind, call, context_scheduleTarget, await.
  destruct (targetFromTargetString host (browserTarget options)) as [e1|bt];
    [cbn; intros H; inversion H; subst; exists []; now rewrite app_nil_r|].
  destruct (targetFromTargetString host (serverTarget options)) as [e1|st];
    [cbn; intros H; inversion H; subst; exists []; now rewrite app_nil_r|].
  cbn.
  destruct (state (scheduleTarget host h bt _)); cbn;
    try destruct (state (scheduleTarget host _ st _)); cbn;
    intros H; inversion H; subst; rewrite <- ?app_assoc;
    eexists; (split; [reflexivity | reflexivity]).
Qed.

(** The build stage only schedules and stops: it extends the history, and
    forks nothing. *)
Lemma scheduleBuilds_events :
  forall h c h1,
    _scheduleBuilds host options h = (c, h1) ->
    exists evs, h1 = h ++ evs /\ forked evs = [].
Proof.
  intros h c h1. unfold _scheduleBuilds, bind.
  destruct (schedule_both host options h) as [[[b s]|e|] h0] eqn:Hsched;
    destruct (schedule_both_events _ Hsched) as (evs & -> & Hevs).
  - cbn [fst snd]. rewrite await_builds_run.
    destruct (state (Promise_all2 (result b) (result s))); cbn;
      try destruct (state (Promise_all2 (stopped (job b) _) _));
      intros H; inversion H; subst; rewrite <- ?app_assoc;
      eexists; (split; [reflexivity|]);
      try exact Hevs;
      clear - Hevs; induction evs as [|[] evs IH]; cbn in *;
      try discriminate; auto.
  - intros H; inversion H; subst. eauto.
  - intros H; inversion H; subst. eauto.
Qed.

(** After a successful build stage, [execute] is [_renderUniversal] on
    the routes, the worker count of the policy and the two results. *)
Lemma execute_renders :
  forall h resolved out h1 browserResult serverResult,
    getRoutes host (workspaceRoot host) (routesFile options) (routes options)
    = inr resolved ->
    resolved <> [] ->
    _scheduleBuilds host options h = (Ok out, h1) ->
    ScheduleBuildsOutput.success out = true ->
    ScheduleBuildsOutput.browserResult out = Some browserResult ->
    ScheduleBuildsOutput.serverResult out = Some serverResult ->
    execute host options h
    = match _renderUniversal host resolved
              (effective_numProcesses options (cpus_length host) resolved)
              browserResult serverResult h1 with
      | (Ok rendered, h2) => (Ok (BrowserOutput rendered), h2)
      | (Throw e, h2) => (Throw e, h2)
      | (Hang, h2) => (Hang, h2)
      end.
Proof.
  intros h resolved out h1 b s Hroutes Hne Hbuild Hsucc Hb Hs.
  unfold execute, bind, call. rewrite Hroutes. cbn.
  destruct resolved as [|r rs]; [congruence|]. cbn [List.length Nat.eqb].
  rewrite Hbuild, Hsucc, Hb, Hs.
  destruct (_renderUniversal _ _ _ _ _ _) as [[rendered|e|] h2]; reflexivity.
Qed.

(** A build stage that does not report success ends [execute]. *)
Lemma execute_stops_on_failure :
  forall h resolved out h1,
    getRoutes host (workspaceRoot host) (routesFile options) (routes options)
    = inr resolved ->
    resolved <> [] ->
    _scheduleBuilds host options h = (Ok out, h1) ->
    ScheduleBuildsOutput.success out = false ->
    execute host options h
    = (Ok (StatusOnly (BuilderOutput.make false (ScheduleBuildsOutput.error out))),
       h1).
Proof.
  intros h resolved out h1 Hroutes Hne Hbuild Hfail.
  unfold execute, bind, call. rewrite Hroutes. cbn.
  destruct resolved as [|r rs]; [congruence|]. cbn [List.length Nat.eqb].
  rewrite Hbuild, Hfail. reflexivity.
Qed.

End Orchestration.

(** C8. When the build stage returns a result whose [success] is [false],
    [execute] returns that failure - the same flag and the same error - at
    once: the history is the one the build stage left, and no worker was
    forked. *)
Theorem execute_returns_build_failure :
  forall host options h resolved out h1,
    getRoutes host (workspaceRoot host) (routesFile options) (routes options)
    = inr resolved ->
    resolved <> [] ->
    _scheduleBuilds host options h = (Ok out, h1) ->
    ScheduleBuildsOutput.success out = false ->
    execute host options h
    = (Ok (StatusOnly (BuilderOutput.make false (ScheduleBuildsOutput.error out))),
       h1)
    /\ forked (events_since h (execute host options h)) = [].
Proof.
  intros host options h resolved out h1 Hroutes Hne Hbuild Hfail.
  pose proof (@execute_stops_on_failure _ _ _ _ _ _ Hroutes Hne Hbuild Hfail) as Hrun.
  split; [exact Hrun|].
  destruct (@scheduleBuilds_events _ _ _ _ _ Hbuild) as (evs & -> & Hevs).
  unfold events_since. rewrite Hrun. cbn [snd].
  now rewrite skipn_length_app.
Qed.

Lemma execute_returns_build_failure_witness :
  execute Sample.browser_fails Sample.options []
  = (Ok (StatusOnly (BuilderOutput.make false (Some "Module not found."%string))),
     snd (_scheduleBuilds Sample.browser_fails Sample.options []))
  /\ forked (events_since [] (execute Sample.browser_fails Sample.options [])) = [].
Proof.
  apply (@execute_returns_build_failure Sample.browser_fails Sample.options []
           ["/"; "/about"; "/contact"]%string
           (combine_results Sample.failedOutput Sample.serverOutput));
    try reflexivity.
  discriminate.
Defined.

(** ** The render dispatcher *)

Lemma for_of_app :
  forall (A : Type) (body : A -> M unit) (xs ys : list A) (h : history),
    for_of (xs ++ ys) body h
    = match for_of xs body h with
      | (Ok _, h1) => for_of ys body h1
      | (Throw e, h1) => (Throw e, h1)
      | (Hang, h1) => (Hang, h1)
      end.
Proof.
  induction xs as [|x xs IH]; intros ys h; cbn.
  - reflexivity.
  - unfold bind. destruct (body x h) as [[u|e|] h1]; auto.
Qed.

Section RenderDispatcher.

Variable host : Host.

(** The loop body at an output path whose index document is readable and
    whose server bundle is not on disk. *)
Lemma render_outputPath_missing_bundle :
  forall resolved n browserResult serverResult outputPath h browserBase indexHtml,
    BuildBuilderOutput.baseOutputPath browserResult = Some browserBase ->
    readFileSync host h (path_join host [outputPath; "index.html"%string])
    = inr indexHtml ->
    existsSync host h
      (bundle_path host serverResult (path_relative host browserBase outputPath))
    = false ->
    render_outputPath host resolved n browserResult serverResult outputPath h
    = (Throw (mkError
                ("Could not find the main bundle: "
                 ++ bundle_path host serverResult
                      (path_relative host browserBase outputPath))%string),
       h).
Proof.
  intros resolved n b s p h base html Hbase Hread Hmissing.
  unfold render_outputPath, bind, now, call, relative.
  rewrite Hread, Hbase. cbn. now rewrite Hmissing.
Qed.

Lemma renderUniversal_stops_at :
  forall resolved n browserResult serverResult earlier outputPath later h h1 e,
    BuildBuilderOutput.outputPaths browserResult = earlier ++ outputPath :: later ->
    for_of earlier (render_outputPath host resolved n browserResult serverResult) h
    = (Ok tt, h1) ->
    render_outputPath host resolved n browserResult serverResult outputPath h1
    = (Throw e, h1) ->
    _renderUniversal host resolved n browserResult serverResult h = (Throw e, h1).
Proof.
  intros resolved n b s earlier p later h h1 e Hpaths Hearlier Hbody.
  unfold _renderUniversal, bind. rewrite Hpaths, for_of_app, Hearlier.
  cbn. unfold bind. now rewrite Hbody.
Qed.

End RenderDispatcher.

(** Two locales, three routes, seven spare processing units: three workers
    per locale, each given the server bundle of its locale. *)
Example healthy_run :
  fst (execute Sample.healthy Sample.options []) = Ok (BrowserOutput Sample.browserOutput)
  /\ forked_bundles (events_since [] (execute Sample.healthy Sample.options []))
     = ["/dist/server/en/main.js"; "/dist/server/en/main.js"; "/dist/server/en/main.js";
        "/dist/server/fr/main.js"; "/dist/server/fr/main.js"; "/dist/server/fr/main.js"]%string.
Proof. split; reflexivity. Qed.

(** C7. At an output path of the browser build that the loop of
    [_renderUniversal] reaches and whose index document is readable, the
    server bundle looked for is the server build's base output path, joined
    with the output path taken relative to the browser build's base output
    path, joined with ['main.js']; when that file does not exist,
    [_renderUniversal] throws, and so does [execute]: nothing is rendered
    for this output path or for a later one. *)
Theorem renderUniversal_missing_server_bundle :
  forall host resolved n browserResult serverResult earlier outputPath later
         h h1 browserBase serverBase indexHtml,
    BuildBuilderOutput.outputPaths browserResult = earlier ++ outputPath :: later ->
    BuildBuilderOutput.baseOutputPath browserResult = Some browserBase ->
    BuildBuilderOutput.baseOutputPath serverResult = Some serverBase ->
    for_of earlier (render_outputPath host resolved n browserResult serverResult) h
    = (Ok tt, h1) ->
    readFileSync host h1 (path_join host [outputPath; "index.html"%string])
    = inr indexHtml ->
    let serverBundlePath :=
      path_join host [serverBase; path_relative host browserBase outputPath;
                      "main.js"%string] in
    existsSync host h1 serverBundlePath = false ->
    let missing :=
      mkError ("Could not find the main bundle: " ++ serverBundlePath)%string in
    _renderUniversal host resolved n browserResult serverResult h = (Throw missing, h1)
    /\ forall options h0 out,
         getRoutes host (workspaceRoot host) (routesFile options) (routes options)
         = inr resolved ->
         resolved <> [] ->
         n = effective_numProcesses options (cpus_length host) resolved ->
         _scheduleBuilds host options h0 = (Ok out, h) ->
         ScheduleBuildsOutput.success out = true ->
         ScheduleBuildsOutput.browserResult out = Some browserResult ->
         ScheduleBuildsOutput.serverResult out = Some serverResult ->
         execute host options h0 = (Throw missing, h1).
Proof.
  intros host resolved n b s earlier p later h h1 bbase sbase html
         Hpaths Hbbase Hsbase Hearlier Hread bundle Hmissing missing.
  assert (Hbundle : bundle_path host s (path_relative host bbase p) = bundle)
    by (unfold bundle_path; now rewrite Hsbase).
  assert (Hrender : _renderUniversal host resolved n b s h = (Throw missing, h1)).
  { eapply renderUniversal_stops_at; eauto.
    subst missing. rewrite <- Hbundle.
    eapply render_outputPath_missing_bundle; eauto. now rewrite Hbundle. }
  split; [exact Hrender|].
  intros options h0 out Hroutes Hne -> Hbuild Hsucc Hb Hs.
  rewrite (@execute_renders _ _ _ _ _ _ _ _ Hroutes Hne Hbuild Hsucc Hb Hs).
  now rewrite Hrender.
Qed.

Lemma renderUniversal_missing_server_bundle_witness :
  fst (execute Sample.bundle_missing Sample.options [])
  = Throw (mkError "Could not find the main bundle: /dist/server/fr/main.js").
Proof.
  pose proof (@renderUniversal_missing_server_bundle
                Sample.bundle_missing ["/"; "/about"; "/contact"]%string 3%Z
                Sample.browserOutput Sample.serverOutput
                ["/dist/browser/en"%string] "/dist/browser/fr"%string []
                (snd (_scheduleBuilds Sample.bundle_missing Sample.options []))
                _ "/dist/browser"%string "/dist/server"%string
                "<app-root></app-root>"%string
                eq_refl eq_refl eq_refl eq_refl eq_refl eq_refl) as [_ Hexecute].
  rewrite (Hexecute Sample.options []
             (combine_results Sample.browserOutput Sample.serverOutput)
             eq_refl ltac:(discriminate) eq_refl eq_refl eq_refl eq_refl eq_refl).
  reflexivity.
Defined.

(** *** Worker errors *)

Lemma forked_app :
  forall evs evs', forked (evs ++ evs') = forked evs ++ forked evs'.
Proof.
  induction evs as [|[] evs IH]; intros evs'; cbn; rewrite ?IH; reflexivity.
Qed.

Lemma first_rejection_none :
  forall (A : Type) (ps : list (Promise A)),
    first_rejection ps = None -> forall p, In p ps -> is_rejected p = false.
Proof.
  induction ps as [|q ps IH]; cbn; intros Hnone p Hin; [contradiction|].
  unfold is_rejected in *.
  destruct (state q) eqn:Hq;
    try (destruct (first_rejection ps) as [[e' t']|];
         [destruct (Nat.leb _ _)|]; discriminate);
    (destruct Hin as [->|Hin]; [now rewrite Hq | now apply IH]).
Qed.

Lemma first_rejection_some :
  forall (A : Type) (ps : list (Promise A)) (e : Error) (t : nat),
    first_rejection ps = Some (e, t) ->
    exists p, In p ps /\ state p = RejectedWith e.
Proof.
  induction ps as [|q ps IH]; cbn; intros e t Hsome; [discriminate|].
  destruct (state q) as [a|e0|] eqn:Hq.
  - destruct (IH _ _ Hsome) as (p & Hin & Hp). eauto.
  - destruct (first_rejection ps) as [[e' t']|].
    + destruct (Nat.leb _ _); injection Hsome as <- <-.
      * eauto.
      * destruct (IH _ _ eq_refl) as (p & Hin & Hp). eauto.
    + injection Hsome as <- <-. eauto.
  - destruct (IH _ _ Hsome) as (p & Hin & Hp). eauto.
Qed.

(** [Promise.all] rejects when one of its promises does, with the error of
    one of them. *)
Lemma Promise_all_rejects :
  forall (A : Type) (ps : list (Promise A)) (p : Promise A),
    In p ps -> is_rejected p = true ->
    exists q e, In q ps /\ state q = RejectedWith e
                /\ state (Promise_all ps) = RejectedWith e.
Proof.
  intros A ps p Hin Hrej. unfold Promise_all.
  destruct (first_rejection ps) as [[e t]|] eqn:Hfirst.
  - destruct (first_rejection_some _ Hfirst) as (q & Hq & He).
    exists q, e. auto.
  - rewrite (first_rejection_none _ Hfirst _ Hin) in Hrej. discriminate.
Qed.

Lemma quiet_aborts :
  forall (A : Type) (m : M A),
    (forall h, exists evs, snd (m h) = h ++ evs /\ forked evs = []) ->
    aborts_on_worker_error m.
Proof.
  intros A m Hquiet h. destruct (Hquiet h) as (evs & Hsnd & Hnone).
  exists evs. split; [exact Hsnd|]. rewrite Hnone.
  intros (child & [] & _).
Qed.

Lemma bind_aborts :
  forall (A B : Type) (m : M A) (k : A -> M B),
    aborts_on_worker_error m ->
    (forall a, aborts_on_worker_error (k a)) ->
    aborts_on_worker_error (bind m k).
Proof.
  intros A B m k Hm Hk h. unfold bind.
  destruct (Hm h) as (evs & Hsnd & Hthrow).
  destruct (m h) as [[a|e|] h1] eqn:Hrun; cbn [fst snd] in *; subst h1.
  - destruct (Hk a (h ++ evs)) as (evs' & Hsnd' & Hthrow').
    exists (evs ++ evs'). split; [now rewrite Hsnd', app_assoc|].
    intros (child & Hin & Hrej). rewrite forked_app in Hin.
    apply in_app_or in Hin. destruct Hin as [Hin|Hin].
    + destruct Hthrow as (c' & e' & _ & _ & He); [eauto | discriminate].
    + destruct Hthrow' as (c' & e' & Hin' & Hc' & He); [eauto|].
      exists c', e'. rewrite forked_app. auto using in_or_app.
  - exists evs. split; [reflexivity|].
    intros Hchild. destruct (Hthrow Hchild) as (c' & e' & Hin & Hc' & He).
    injection He as <-. exists c', e. auto.
  - exists evs. split; [reflexivity|].
    intros Hchild. destruct (Hthrow Hchild) as (c' & e' & _ & _ & He).
    discriminate.
Qed.

Lemma for_of_aborts :
  forall (A : Type) (body : A -> M unit) (xs : list A),
    (forall x, aborts_on_worker_error (body x)) ->
    aborts_on_worker_error (for_of xs body).
Proof.
  intros A body xs Hbody. induction xs as [|x xs IH]; cbn [for_of].
  - apply quiet_aborts. intros h. exists []. now rewrite app_nil_r.
  - apply bind_aborts; auto.
Qed.

Ltac quiet :=
  apply quiet_aborts; intros ?h;
  first [ exists []; split; [cbn; now rewrite app_nil_r | reflexivity]
        | eexists; split; [reflexivity | reflexivity] ].

Lemma ret_aborts : forall (A : Type) (a : A), aborts_on_worker_error (ret a).
Proof. intros. quiet. Qed.

Lemma throw_aborts : forall (A : Type) (e : Error), aborts_on_worker_error (@throw A e).
Proof. intros. quiet. Qed.

Lemma call_aborts : forall (A : Type) (r : Error + A), aborts_on_worker_error (call r).
Proof. intros A [e|a]; quiet. Qed.

Lemma now_aborts : aborts_on_worker_error now.
Proof. quiet. Qed.

Lemma await_aborts : forall (A : Type) (p : Promise A), aborts_on_worker_error (await p).
Proof.
  intros A p. apply quiet_aborts. intros h. exists []. unfold await.
  destruct (state p); cbn; now rewrite app_nil_r.
Qed.

Lemma log_aborts : forall line, aborts_on_worker_error (emit (LogInfo line)).
Proof. intros. quiet. Qed.

Section WorkerErrors.

Variable host : Host.

Lemma deliver_run :
  forall evs h, exists logs,
    deliver evs h = (Ok tt, h ++ logs) /\ forked logs = [].
Proof.
  induction evs as [|[[p bytes|p msg]| |e] evs IH]; intros h; cbn [deliver].
  - exists []. now rewrite app_nil_r.
  - unfold bind, on_message, emit.
    destruct (IH (h ++ [LogInfo ("CREATE " ++ p ++ " (" ++ decimal bytes
                                 ++ " bytes)")%string]))
      as (logs & Hrun & Hnone).
    rewrite Hrun, <- app_assoc. eexists. split; [reflexivity | exact Hnone].
  - unfold bind, on_message, emit. unfold bind.
    destruct (IH ((h ++ [LogError ("Error: " ++ msg)%string])
                  ++ [LogError ("Unable to render " ++ p)%string]))
      as (logs & Hrun & Hnone).
    rewrite Hrun, <- !app_assoc. eexists. split; [reflexivity | exact Hnone].
  - apply IH.
  - apply IH.
Qed.

Lemma spawn_run :
  forall workerFile args h, exists logs,
    spawn host workerFile args h
    = (Ok (child_promise (fork host h workerFile args)),
       h ++ Fork workerFile args (fork host h workerFile args) :: logs)
    /\ forked logs = [].
Proof.
  intros wf args h. unfold spawn, bind, now, emit, ret.
  destruct (deliver_run (emits (fork host h wf args))
              (h ++ [Fork wf args (fork host h wf args)]))
    as (logs & Hrun & Hnone).
  rewrite Hrun, <- app_assoc. exists logs. split; [reflexivity | exact Hnone].
Qed.

(** [_parallelRenderRoutes] returns the promises of the children it
    forked, and does not throw. *)
Lemma parallelRenderRoutes_run :
  forall groupedRoutes indexHtml outputPath serverBundlePath h, exists evs,
    _parallelRenderRoutes host groupedRoutes indexHtml outputPath serverBundlePath h
    = (Ok (map child_promise (forked evs)), h ++ evs).
Proof.
  intros groups html out bundle. unfold _parallelRenderRoutes.
  induction groups as [|g groups IH]; intros h; cbn [Array_from].
  - exists []. now rewrite app_nil_r.
  - unfold bind at 1.
    destruct (spawn_run (path_join host [dirname host; "render.js"%string])
                (html :: bundle :: out :: g) h) as (logs & Hrun & Hnone).
    rewrite Hrun. unfold bind at 1.
    destruct (IH (h ++ Fork (path_join host [dirname host; "render.js"%string])
                            (html :: bundle :: out :: g)
                            (fork host h (path_join host [dirname host; "render.js"%string])
                                  (html :: bundle :: out :: g)) :: logs))
      as (evs & Hrest).
    rewrite Hrest. unfold ret. rewrite <- app_assoc.
    exists ((Fork (path_join host [dirname host; "render.js"%string])
                  (html :: bundle :: out :: g)
                  (fork host h (path_join host [dirname host; "render.js"%string])
                        (html :: bundle :: out :: g)) :: logs) ++ evs).
    rewrite forked_app. cbn [forked]. rewrite Hnone. reflexivity.
Qed.

Lemma batch_aborts :
  forall groupedRoutes indexHtml outputPath serverBundlePath,
    aborts_on_worker_error
      (bind (_parallelRenderRoutes host groupedRoutes indexHtml outputPath
                                   serverBundlePath)
            (fun childProcesses =>
               bind (await (Promise_all childProcesses)) (fun _ => ret tt))).
Proof.
  intros groups html out bundle h.
  destruct (parallelRenderRoutes_run groups html out bundle h) as (evs & Hrun).
  exists evs. unfold bind, await, ret. rewrite !Hrun.
  split.
  - destruct (state (Promise_all _)); reflexivity.
  - intros (child & Hin & Hrej).
    destruct (@Promise_all_rejects _ (map child_promise (forked evs))
                (child_promise child) (in_map _ _ _ Hin) Hrej)
      as (q & e & Hq & Hqe & He).
    apply in_map_iff in Hq. destruct Hq as (child' & <- & Hin').
    rewrite He. exists child', e. auto.
Qed.

Lemma render_outputPath_aborts :
  forall resolved n browserResult serverResult outputPath,
    aborts_on_worker_error
      (render_outputPath host resolved n browserResult serverResult outputPath).
Proof.
  intros resolved n b s p. unfold render_outputPath.
  apply bind_aborts; [apply now_aborts | intros h].
  apply bind_aborts; [apply call_aborts | intros html].
  apply bind_aborts.
  { unfold relative. destruct (BuildBuilderOutput.baseOutputPath b);
      [apply ret_aborts | apply throw_aborts]. }
  intros locale.
  apply bind_aborts; [apply now_aborts | intros h'].
  destruct (negb _); [apply throw_aborts|].
  apply bind_aborts; [apply log_aborts | intros _].
  apply batch_aborts.
Qed.

Lemma renderUniversal_aborts :
  forall resolved n browserResult serverResult,
    aborts_on_worker_error
      (_renderUniversal host resolved n browserResult serverResult).
Proof.
  intros resolved n b s. unfold _renderUniversal.
  apply bind_aborts; [|intros _; apply ret_aborts].
  apply for_of_aborts. intros p. apply render_outputPath_aborts.
Qed.

Lemma execute_aborts :
  forall options, aborts_on_worker_error (execute host options).
Proof.
  intros options. unfold execute.
  apply bind_aborts; [apply call_aborts | intros resolved].
  destruct (Nat.eqb _ _); [apply throw_aborts|].
  apply bind_aborts.
  { apply quiet_aborts. intros h.
    destruct (_scheduleBuilds host options h) as [c h1] eqn:Hbuild.
    destruct (scheduleBuilds_events _ _ _ Hbuild) as (evs & -> & Hnone).
    exists evs. auto. }
  intros out.
  destruct (ScheduleBuildsOutput.success out);
    [|apply ret_aborts].
  destruct (ScheduleBuildsOutput.browserResult out) as [b|]; [|apply ret_aborts].
  destruct (ScheduleBuildsOutput.serverResult out) as [s|]; [|apply ret_aborts].
  apply bind_aborts; [apply renderUniversal_aborts | intros r; apply ret_aborts].
Qed.

End WorkerErrors.

Lemma child_promise_rejects :
  forall child e,
    exit_or_error (emits child) = RejectedWith e ->
    state (child_promise child) = RejectedWith e.
Proof. intros child e H. unfold child_promise, Promise_map. cbn. now rewrite H. Qed.

(** C9. A forked worker whose first ['exit'] or ['error'] event is an
    ['error'] rejects its promise, and [_renderUniversal], and with it
    [execute], then throws the error of a worker it forked: the batch is
    aborted. *)
Theorem worker_error_rejects_execute :
  forall host child e,
    exit_or_error (emits child) = RejectedWith e ->
    state (child_promise child) = RejectedWith e
    /\ (forall resolved n browserResult serverResult h,
          In child (forked (events_since h
                      (_renderUniversal host resolved n browserResult serverResult h))) ->
          exists child' e',
            In child' (forked (events_since h
                         (_renderUniversal host resolved n browserResult serverResult h)))
            /\ state (child_promise child') = RejectedWith e'
            /\ fst (_renderUniversal host resolved n browserResult serverResult h)
               = Throw e')
    /\ (forall options h,
          In child (forked (events_since h (execute host options h))) ->
          exists child' e',
            In child' (forked (events_since h (execute host options h)))
            /\ state (child_promise child') = RejectedWith e'
            /\ fst (execute host options h) = Throw e').
Proof.
  intros host child e Herror.
  pose proof (child_promise_rejects _ Herror) as Hrej.
  assert (Hflag : is_rejected (child_promise child) = true)
    by (unfold is_rejected; now rewrite Hrej).
  split; [exact Hrej | split].
  - intros resolved n b s h.
    destruct (@renderUniversal_aborts host resolved n b s h) as (evs & Hsnd & Habort).
    unfold events_since. rewrite Hsnd, skipn_length_app. eauto.
  - intros options h.
    destruct (@execute_aborts host options h) as (evs & Hsnd & Habort).
    unfold events_since. rewrite Hsnd, skipn_length_app. eauto.
Qed.

Lemma worker_error_rejects_execute_witness :
  exists child' e',
    In child' (forked (events_since [] (execute Sample.worker_fails Sample.options [])))
    /\ state (child_promise child') = RejectedWith e'
    /\ fst (execute Sample.worker_fails Sample.options []) = Throw e'.
Proof.
  destruct (@worker_error_rejects_execute Sample.worker_fails Sample.worker_errors
              (mkError "spawn ENOMEM") eq_refl) as (_ & _ & Hexecute).
  apply (Hexecute Sample.options []).
  vm_compute. auto.
Defined.

(** *** A server build without a base output path *)

(** C10. The [success] flag of the build stage does not depend on the
    server build's [baseOutputPath]. When it is undefined,
    [_renderUniversal] joins the empty string, the locale directory and
    ['main.js'] - which is the locale directory joined with ['main.js'] when
    [path.join] skips empty segments, as Node's does - and a bundle missing
    at that path is reported by the same error as any missing bundle. *)
Theorem undefined_server_baseOutputPath :
  forall host browserResult serverResult,
    BuildBuilderOutput.baseOutputPath serverResult = None ->
    (forall v,
       ScheduleBuildsOutput.success
         (combine_results browserResult
            (BuildBuilderOutput.with_baseOutputPath serverResult v))
       = ScheduleBuildsOutput.success (combine_results browserResult serverResult))
    /\ (forall localeDirectory,
          bundle_path host serverResult localeDirectory
          = path_join host [""%string; localeDirectory; "main.js"%string])
    /\ ((forall segments, path_join host (""%string :: segments) = path_join host segments) ->
        forall localeDirectory,
          bundle_path host serverResult localeDirectory
          = path_join host [localeDirectory; "main.js"%string])
    /\ (forall resolved n outputPath h browserBase indexHtml,
          BuildBuilderOutput.baseOutputPath browserResult = Some browserBase ->
          readFileSync host h (path_join host [outputPath; "index.html"%string])
          = inr indexHtml ->
          existsSync host h
            (path_join host [""%string; path_relative host browserBase outputPath;
                             "main.js"%string]) = false ->
          render_outputPath host resolved n browserResult serverResult outputPath h
          = (Throw (mkError
                      ("Could not find the main bundle: "
                       ++ path_join host [""%string;
                                          path_relative host browserBase outputPath;
                                          "main.js"%string])%string),
             h)).
Proof.
  intros host b s Hnone.
  assert (Hbundle : forall locale,
             bundle_path host s locale
             = path_join host [""%string; locale; "main.js"%string])
    by (intros locale; unfold bundle_path; now rewrite Hnone).
  split; [reflexivity | split; [exact Hbundle | split]].
  - intros Hskip locale. now rewrite Hbundle, Hskip.
  - intros resolved n p h bbase html Hbbase Hread Hmissing.
    rewrite <- Hbundle in *.
    now apply render_outputPath_missing_bundle with (indexHtml := html).
Qed.

Lemma undefined_server_baseOutputPath_witness :
  ScheduleBuildsOutput.success
    (combine_results Sample.browserOutput Sample.serverOutput_without_base) = true
  /\ bundle_path Sample.server_base_undefined Sample.serverOutput_without_base "en"
     = "en/main.js"%string
  /\ render_outputPath Sample.server_base_undefined ["/"]%string 1
       Sample.browserOutput Sample.serverOutput_without_base "/dist/browser/en" []
     = (Throw (mkError "Could not find the main bundle: en/main.js"), []).
Proof.
  destruct (@undefined_server_baseOutputPath Sample.server_base_undefined
              Sample.browserOutput Sample.serverOutput_without_base eq_refl)
    as (Hflag & _ & Hskip & Hthrow).
  split; [|split].
  - rewrite <- (Hflag (Some "/dist/server"%string)). reflexivity.
  - rewrite (Hskip (fun segments => eq_refl) "en"%string). reflexivity.
  - rewrite (Hthrow ["/"]%string 1%Z "/dist/browser/en"%string []
               "/dist/browser"%string "<app-root></app-root>"%string
               eq_refl eq_refl eq_refl).
    reflexivity.
Defined.

(** * Further properties of the builder *)

(** ** The build scheduler *)

(** What a returning [_scheduleBuilds] has gone through. *)
Lemma scheduleBuilds_returns :
  forall host options h out h',
    _scheduleBuilds host options h = (Ok out, h') ->
    exists b s h1,
      schedule_both host options h = (Ok (b, s), h1)
      /\ h' = h1 ++ [Stop (handle b); Stop (handle s)]
      /\ ((exists br sr,
              state (result b) = Fulfilled br /\ state (result s) = Fulfilled sr
              /\ out = combine_results br sr)
          \/ (exists e,
                 state (Promise_all2 (result b) (result s)) = RejectedWith e
                 /\ out = ScheduleBuildsOutput.make false (Some (message e)) None None)).
Proof.
  intros host options h out h'. unfold _scheduleBuilds, bind.
  destruct (schedule_both host options h) as [[[b s]|e|] h1] eqn:Hsched;
    try discriminate.
  cbn [fst snd]. rewrite await_builds_run.
  destruct (state (Promise_all2 (result b) (result s))) as [[br sr]|e|] eqn:Hall;
    try discriminate; cbn;
    destruct (state (Promise_all2 (stopped (job b) h1) _)); try discriminate;
    intros H; injection H as <- <-; exists b, s, h1;
    (split; [reflexivity | split; [reflexivity|]]).
  - left. exists br, sr. apply Promise_all2_fulfilled in Hall. tauto.
  - right. exists e. auto.
Qed.

(** X1. A build stage that returns success carries both build results, both
    of them successful, and the browser result has a base output path. *)
Theorem scheduleBuilds_success_carries_results :
  forall host options h out h',
    _scheduleBuilds host options h = (Ok out, h') ->
    ScheduleBuildsOutput.success out = true ->
    exists browserResult serverResult browserBase,
      ScheduleBuildsOutput.browserResult out = Some browserResult
      /\ ScheduleBuildsOutput.serverResult out = Some serverResult
      /\ BuildBuilderOutput.success browserResult = true
      /\ BuildBuilderOutput.success serverResult = true
      /\ BuildBuilderOutput.baseOutputPath browserResult = Some browserBase.
Proof.
  intros host options h out h' Hrun Hsucc.
  destruct (scheduleBuilds_returns _ _ _ Hrun)
    as (b & s & h1 & _ & _ & [(br & sr & _ & _ & ->) | (e & _ & ->)]);
    [|discriminate].
  cbn in Hsucc. rewrite !andb_true_iff in Hsucc. destruct Hsucc as [[Hb Hs] Hbase].
  destruct (BuildBuilderOutput.baseOutputPath br) as [base|] eqn:Hbr; [|discriminate].
  exists br, sr, base. cbn. auto.
Qed.

Lemma scheduleBuilds_success_carries_results_witness :
  exists browserResult serverResult browserBase,
    ScheduleBuildsOutput.browserResult
      (combine_results Sample.browserOutput Sample.serverOutput) = Some browserResult
    /\ ScheduleBuildsOutput.serverResult
         (combine_results Sample.browserOutput Sample.serverOutput) = Some serverResult
    /\ BuildBuilderOutput.success browserResult = true
    /\ BuildBuilderOutput.success serverResult = true
    /\ BuildBuilderOutput.baseOutputPath browserResult = Some browserBase.
Proof.
  apply (@scheduleBuilds_success_carries_results Sample.healthy Sample.options []
           (combine_results Sample.browserOutput Sample.serverOutput)
           (snd (_scheduleBuilds Sample.healthy Sample.options [])));
    reflexivity.
Defined.

(** X2. When both builds fulfil, the error of the combined result is the
    browser build's error, unless that is absent or the empty string: then
    it is the server build's error. Both results are handed on. *)
Theorem scheduleBuilds_error_precedence :
  forall host options h h1 browserRun serverRun browserResult serverResult,
    schedule_both host options h = (Ok (browserRun, serverRun), h1) ->
    state (result browserRun) = Fulfilled browserResult ->
    state (result serverRun) = Fulfilled serverResult ->
    released browserRun serverRun h1 = true ->
    exists out,
      _scheduleBuilds host options h
      = (Ok out, h1 ++ [Stop (handle browserRun); Stop (handle serverRun)])
      /\ ScheduleBuildsOutput.browserResult out = Some browserResult
      /\ ScheduleBuildsOutput.serverResult out = Some serverResult
      /\ (forall e, BuildBuilderOutput.error browserResult = Some e -> e <> ""%string ->
            ScheduleBuildsOutput.error out = Some e)
      /\ (BuildBuilderOutput.error browserResult = None
          \/ BuildBuilderOutput.error browserResult = Some ""%string ->
          ScheduleBuildsOutput.error out = BuildBuilderOutput.error serverResult).
Proof.
  intros host options h h1 b s br sr Hsched Hb Hs Hrel.
  assert (Hall : state (Promise_all2 (result b) (result s)) = Fulfilled (br, sr))
    by (apply Promise_all2_fulfilled; auto).
  rewrite (scheduleBuilds_scheduled _ _ _ Hsched), await_builds_run, Hall.
  unfold released in Hrel. cbn.
  destruct (state (Promise_all2 (stopped (job b) h1) _)); try discriminate.
  eexists. split; [reflexivity|]. cbn. unfold or_string.
  split; [reflexivity | split; [reflexivity | split]].
  - intros e -> Hne. destruct (String.eqb_spec e ""); congruence.
  - intros [-> | ->]; reflexivity.
Qed.

Lemma scheduleBuilds_error_precedence_witness :
  exists out,
    fst (_scheduleBuilds Scenario.both_fail Sample.options []) = Ok out
    /\ ScheduleBuildsOutput.error out = Some "Cannot resolve main.server.ts."%string.
Proof.
  destruct (@scheduleBuilds_error_precedence Scenario.both_fail Sample.options []
              _ _ _ Scenario.quietFailure Scenario.serverFailure
              eq_refl eq_refl eq_refl eq_refl)
    as (out & Hrun & _ & _ & _ & Hserver).
  exists out. split.
  - rewrite Hrun. reflexivity.
  - rewrite Hserver; [reflexivity | right; reflexivity].
Defined.

(** X3. A [stop()] that rejects in the [finally] block replaces the result:
    once both targets are scheduled and the builds have settled,
    [_scheduleBuilds] throws the error [Promise.all] of the two [stop()]
    promises rejects with, whatever the builds gave, after both [stop()]
    calls were made. *)
Theorem scheduleBuilds_stop_rejection_wins :
  forall host options h h1 browserRun serverRun e,
    schedule_both host options h = (Ok (browserRun, serverRun), h1) ->
    builds_settle browserRun serverRun = true ->
    state (Promise_all2 (stopped (job browserRun) h1)
                        (stopped (job serverRun) (h1 ++ [Stop (handle browserRun)])))
    = RejectedWith e ->
    _scheduleBuilds host options h
    = (Throw e, h1 ++ [Stop (handle browserRun); Stop (handle serverRun)]).
Proof.
  intros host options h h1 b s e Hsched Hsettle Hstop.
  rewrite (scheduleBuilds_scheduled _ _ _ Hsched), await_builds_run, Hstop.
  unfold builds_settle, is_pending in Hsettle.
  destruct (state (Promise_all2 (result b) (result s))); try discriminate;
    reflexivity.
Qed.

Lemma scheduleBuilds_stop_rejection_wins_witness :
  fst (_scheduleBuilds Scenario.stop_rejects Sample.options [])
  = Throw (mkError "Job already stopped.").
Proof.
  rewrite (@scheduleBuilds_stop_rejection_wins Scenario.stop_rejects Sample.options []
             _ _ _ (mkError "Job already stopped.") eq_refl eq_refl eq_refl).
  reflexivity.
Defined.

(** X4. There is no timeout: when neither build rejects and one of them
    never settles, [_scheduleBuilds] never returns, and [stop()] is called
    on neither run. *)
Theorem scheduleBuilds_hangs_with_a_build :
  forall host options h h1 browserRun serverRun,
    schedule_both host options h = (Ok (browserRun, serverRun), h1) ->
    builds_settle browserRun serverRun = false ->
    _scheduleBuilds host options h = (Hang, h1)
    /\ stop_calls (handle browserRun)
         (events_since h (_scheduleBuilds host options h)) = 0
    /\ stop_calls (handle serverRun)
         (events_since h (_scheduleBuilds host options h)) = 0.
Proof.
  intros host options h h1 b s Hsched Hsettle.
  assert (Hrun : _scheduleBuilds host options h = (Hang, h1)).
  { rewrite (scheduleBuilds_scheduled _ _ _ Hsched), await_builds_run.
    unfold builds_settle, is_pending in Hsettle.
    destruct (state (Promise_all2 (result b) (result s))); try discriminate.
    reflexivity. }
  split; [exact Hrun|].
  destruct (schedule_both_ok _ _ _ Hsched) as (bt & st & o1 & o2 & -> & _ & _).
  unfold events_since. rewrite Hrun. cbn [snd]. rewrite skipn_length_app.
  split; reflexivity.
Qed.

Lemma scheduleBuilds_hangs_with_a_build_witness :
  fst (_scheduleBuilds Scenario.server_hangs Sample.options []) = Hang
  /\ stop_calls 0 (events_since [] (_scheduleBuilds Scenario.server_hangs Sample.options [])) = 0.
Proof.
  destruct (@scheduleBuilds_hangs_with_a_build Scenario.server_hangs Sample.options []
              _ _ _ eq_refl eq_refl) as (Hrun & Hb & _).
  split; [now rewrite Hrun | exact Hb].
Defined.

(** X5. Both target strings are parsed before anything is scheduled: when
    either does not parse, [_scheduleBuilds] throws the parser's error and
    no build has been scheduled. *)
Theorem scheduleBuilds_invalid_target :
  forall host options h e,
    targetFromTargetString host (browserTarget options) = inl e
    \/ ((exists t, targetFromTargetString host (browserTarget options) = inr t)
        /\ targetFromTargetString host (serverTarget options) = inl e) ->
    _scheduleBuilds host options h = (Throw e, h).
Proof.
  intros host options h e Hparse.
  unfold _scheduleBuilds, schedule_both, bind, call.
  destruct Hparse as [-> | [[t ->] ->]]; reflexivity.
Qed.

Lemma scheduleBuilds_invalid_target_witness :
  _scheduleBuilds Sample.healthy Scenario.bad_server_target []
  = (Throw (mkError "Invalid target string."), []).
Proof.
  apply (@scheduleBuilds_invalid_target Sample.healthy Scenario.bad_server_target []).
  right. split; [eexists; reflexivity | reflexivity].
Defined.

(** X6. The server target is scheduled only once the scheduling of the
    browser target has fulfilled: when that promise rejects or stays
    pending, the only call made is the scheduling of the browser target,
    with [watch] and [serviceWorker] off, and [_scheduleBuilds] throws or
    hangs accordingly. *)
Theorem scheduleBuilds_browser_not_scheduled :
  forall host options h browserT serverT,
    targetFromTargetString host (browserTarget options) = inr browserT ->
    targetFromTargetString host (serverTarget options) = inr serverT ->
    (forall j, state (scheduleTarget host h browserT (mkScheduleOptions false (Some false)))
               <> Fulfilled j) ->
    events_since h (_scheduleBuilds host options h)
    = [ScheduleTarget browserT (mkScheduleOptions false (Some false))]
    /\ fst (_scheduleBuilds host options h)
       = match state (scheduleTarget host h browserT
                        (mkScheduleOptions false (Some false))) with
         | RejectedWith e => Throw e
         | _ => Hang
         end.
Proof.
  intros host options h bt st Hb Hs Hnot.
  unfold events_since, _scheduleBuilds, schedule_both, bind, call,
    context_scheduleTarget, await.
  rewrite Hb, Hs. cbn.
  destruct (state (scheduleTarget host h bt _)) as [j|e|]; cbn.
  - destruct (Hnot j eq_refl).
  - now rewrite skipn_length_app.
  - now rewrite skipn_length_app.
Qed.

Lemma scheduleBuilds_browser_not_scheduled_witness :
  events_since [] (_scheduleBuilds Sample.browser_not_scheduled Sample.options [])
  = [ScheduleTarget (mkTarget "app" "app:build" None)
                    (mkScheduleOptions false (Some false))].
Proof.
  apply (@scheduleBuilds_browser_not_scheduled Sample.browser_not_scheduled
           Sample.options [] (mkTarget "app" "app:build" None)
           (mkTarget "app" "app:server" None) eq_refl eq_refl).
  intros j. discriminate.
Defined.

(** ** Events of the build stage and of the render stage *)



Section OnlyAdds.

Variable P : event -> Prop.








End OnlyAdds.




(** ** Waiting for the workers *)

Lemma fulfilled_values_all :
  forall (A : Type) (ps : list (Promise A)) (vs : list A) (t : nat),
    fulfilled_values ps = Some (vs, t) ->
    forall p, In p ps -> exists a, state p = Fulfilled a.
Proof.
  induction ps as [|q ps IH]; cbn; intros vs t Hsome p Hin; [contradiction|].
  destruct (state q) as [a|e|] eqn:Hq; try discriminate.
  destruct (fulfilled_values ps) as [[vs' t']|] eqn:Hrest; [|discriminate].
  destruct Hin as [<-|Hin]; eauto.
Qed.

(** [Promise.all] fulfils only when each of its promises has. *)
Lemma Promise_all_fulfilled :
  forall (A : Type) (ps : list (Promise A)) (vs : list A),
    state (Promise_all ps) = Fulfilled vs ->
    forall p, In p ps -> exists a, state p = Fulfilled a.
Proof.
  intros A ps vs. unfold Promise_all.
  destruct (first_rejection ps) as [[e t]|]; [discriminate|].
  destruct (fulfilled_values ps) as [[vs' t]|] eqn:Hall; [|discriminate].
  intros _. eapply fulfilled_values_all; eauto.
Qed.

(** [Promise.all] of promises that all fulfil does fulfil. *)
Lemma Promise_all_of_fulfilled :
  forall (A : Type) (ps : list (Promise A)),
    (forall p, In p ps -> exists a, state p = Fulfilled a) ->
    exists vs, state (Promise_all ps) = Fulfilled vs.
Proof.
  intros A ps Hall. unfold Promise_all.
  assert (Hnone : first_rejection ps = None /\ exists r, fulfilled_values ps = Some r).
  { induction ps as [|q ps IH]; cbn; [eauto|].
    destruct (Hall q (or_introl eq_refl)) as [a Hq]. rewrite Hq.
    destruct IH as [Hrej [[vs t] Hvs]]; [intros p Hp; apply Hall; now right|].
    rewrite Hrej, Hvs. eauto. }
  destruct Hnone as [-> [[vs t] ->]]. exists vs. reflexivity.
Qed.

Lemma child_promise_fulfilled :
  forall child a, state (child_promise child) = Fulfilled a -> exited child.
Proof.
  intros child a. unfold child_promise, Promise_map, exited. cbn.
  destruct (exit_or_error (emits child)) as [[]|e|]; congruence.
Qed.

Lemma exited_child_promise :
  forall child, exited child -> state (child_promise child) = Fulfilled child.
Proof.
  intros child H. unfold child_promise, Promise_map, exited in *. cbn. now rewrite H.
Qed.

Lemma returns_after_exits_quiet :
  forall (A : Type) (m : M A),
    (forall h, exists evs, snd (m h) = h ++ evs /\ forked evs = []) ->
    returns_after_exits m.
Proof.
  intros A m Hquiet h. destruct (Hquiet h) as (evs & Hsnd & Hnone).
  exists evs. rewrite Hnone. auto.
Qed.

Lemma returns_after_exits_still :
  forall (A : Type) (m : M A),
    (forall h, snd (m h) = h) -> returns_after_exits m.
Proof.
  intros A m Hm. apply returns_after_exits_quiet. intros h. exists [].
  rewrite Hm, app_nil_r. auto.
Qed.

Lemma returns_after_exits_bind :
  forall (A B : Type) (m : M A) (k : A -> M B),
    returns_after_exits m ->
    (forall a, returns_after_exits (k a)) ->
    returns_after_exits (bind m k).
Proof.
  intros A B m k Hm Hk h. unfold bind.
  destruct (Hm h) as (evs & Hsnd & Hexit).
  destruct (m h) as [[a|e|] h1]; cbn [fst snd] in *; subst h1.
  - destruct (Hk a (h ++ evs)) as (evs' & Hsnd' & Hexit').
    exists (evs ++ evs'). rewrite Hsnd', app_assoc. split; [reflexivity|].
    intros Hok. rewrite forked_app. apply Forall_app. split; eauto.
  - exists evs. split; [reflexivity|]. intros [b Hb]. discriminate.
  - exists evs. split; [reflexivity|]. intros [b Hb]. discriminate.
Qed.

Lemma returns_after_exits_for_of :
  forall (A : Type) (body : A -> M unit) (xs : list A),
    (forall x, returns_after_exits (body x)) ->
    returns_after_exits (for_of xs body).
Proof.
  intros A body xs Hbody. induction xs as [|x xs IH]; cbn [for_of].
  - now apply returns_after_exits_still.
  - apply returns_after_exits_bind; auto.
Qed.

Section Waiting.

Variable host : Host.

Lemma batch_returns_after_exits :
  forall groupedRoutes indexHtml outputPath serverBundlePath,
    returns_after_exits
      (bind (_parallelRenderRoutes host groupedRoutes indexHtml outputPath
                                   serverBundlePath)
            (fun childProcesses =>
               bind (await (Promise_all childProcesses)) (fun _ => ret tt))).
Proof.
  intros groups html out bundle h.
  destruct (parallelRenderRoutes_run host groups html out bundle h) as (evs & Hrun).
  exists evs. unfold bind, await, ret. rewrite !Hrun.
  destruct (state (Promise_all (map child_promise (forked evs)))) as [vs|e|] eqn:Hall;
    cbn [fst snd]; (split; [reflexivity|]); try (intros [a Ha]; discriminate).
  intros _. apply Forall_forall. intros child Hin.
  destruct (Promise_all_fulfilled _ Hall (child_promise child) (in_map _ _ _ Hin))
    as [a Ha].
  eapply child_promise_fulfilled; eauto.
Qed.

Lemma renderUniversal_returns_after_exits :
  forall resolved n browserResult serverResult,
    returns_after_exits (_renderUniversal host resolved n browserResult serverResult).
Proof.
  intros resolved n b s. unfold _renderUniversal.
  apply returns_after_exits_bind; [|intros _; now apply returns_after_exits_still].
  apply returns_after_exits_for_of. intros p. unfold render_outputPath.
  apply returns_after_exits_bind; [now apply returns_after_exits_still | intros h].
  apply returns_after_exits_bind.
  { destruct (readFileSync host h _); now apply returns_after_exits_still. }
  intros html.
  apply returns_after_exits_bind.
  { unfold relative. destruct (BuildBuilderOutput.baseOutputPath b);
      now apply returns_after_exits_still. }
  intros locale.
  apply returns_after_exits_bind; [now apply returns_after_exits_still | intros h'].
  destruct (negb _); [now apply returns_after_exits_still|].
  apply returns_after_exits_bind; [|intros _; apply batch_returns_after_exits].
  apply returns_after_exits_quiet. intros h0. eexists. split; reflexivity.
Qed.

Lemma execute_returns_after_exits :
  forall options, returns_after_exits (execute host options).
Proof.
  intros options. unfold execute.
  apply returns_after_exits_bind.
  { destruct (getRoutes host _ _ _); now apply returns_after_exits_still. }
  intros resolved.
  destruct (Nat.eqb _ _); [now apply returns_after_exits_still|].
  apply returns_after_exits_bind.
  { apply returns_after_exits_quiet. intros h.
    destruct (_scheduleBuilds host options h) as [c h1] eqn:Hbuild.
    destruct (scheduleBuilds_events _ _ _ Hbuild) as (evs & -> & Hnone).
    exists evs. auto. }
  intros out.
  destruct (ScheduleBuildsOutput.success out);
    [|now apply returns_after_exits_still].
  destruct (ScheduleBuildsOutput.browserResult out) as [b|];
    [|now apply returns_after_exits_still].
  destruct (ScheduleBuildsOutput.serverResult out) as [s|];
    [|now apply returns_after_exits_still].
  apply returns_after_exits_bind;
    [apply renderUniversal_returns_after_exits
    | intros r; now apply returns_after_exits_still].
Qed.

End Waiting.

(** X8. [execute] returns only after every worker it forked has exited:
    in a run that returns, each forked child has emitted ['exit'] (and no
    ['error'] before it). *)
Theorem execute_returns_after_every_worker_exits :
  forall host options h out,
    fst (execute host options h) = Ok out ->
    Forall exited (forked (events_since h (execute host options h))).
Proof.
  intros host options h out Hok.
  destruct (@execute_returns_after_exits host options h) as (evs & Hsnd & Hexit).
  unfold events_since. rewrite Hsnd, skipn_length_app. eauto.
Qed.

Lemma execute_returns_after_every_worker_exits_witness :
  Forall exited (forked (events_since [] (execute Sample.healthy Sample.options []))).
Proof.
  apply (@execute_returns_after_every_worker_exits Sample.healthy Sample.options []
           (BrowserOutput Sample.browserOutput)).
  reflexivity.
Defined.

(** ** What the workers are given *)

Lemma forked_calls_app :
  forall evs evs', forked_calls (evs ++ evs') = forked_calls evs ++ forked_calls evs'.
Proof.
  induction evs as [|[] evs IH]; intros evs'; cbn; rewrite ?IH; reflexivity.
Qed.

Lemma forked_calls_none :
  forall evs, forked evs = [] -> forked_calls evs = [].
Proof.
  induction evs as [|[] evs IH]; cbn; auto. discriminate.
Qed.

Lemma forked_calls_length :
  forall evs, List.length (forked evs) = List.length (forked_calls evs).
Proof.
  induction evs as [|[] evs IH]; cbn; auto.
Qed.

Section Dispatch.

Variable host : Host.

(** The worker module: [render.js] beside the builder. *)
Let workerFile : string := path_join host [dirname host; "render.js"%string].

(** One [fork] per group, in the order of the groups, each with the index
    document, the server bundle, the output path and the routes of its
    group. *)
Lemma parallelRenderRoutes_calls :
  forall groupedRoutes indexHtml outputPath serverBundlePath h, exists evs,
    _parallelRenderRoutes host groupedRoutes indexHtml outputPath serverBundlePath h
    = (Ok (map child_promise (forked evs)), h ++ evs)
    /\ forked_calls evs
       = map (fun group =>
                (workerFile, indexHtml :: serverBundlePath :: outputPath :: group))
             groupedRoutes
    /\ Forall (fun child => exists h' args, child = fork host h' workerFile args)
              (forked evs).
Proof.
  intros groups html out bundle. unfold _parallelRenderRoutes. fold workerFile.
  induction groups as [|g groups IH]; intros h; cbn [Array_from].
  - exists []. rewrite app_nil_r. cbn. auto.
  - unfold bind at 1.
    destruct (spawn_run host workerFile (html :: bundle :: out :: g) h)
      as (logs & Hrun & Hnone).
    rewrite Hrun. unfold bind at 1.
    destruct (IH (h ++ Fork workerFile (html :: bundle :: out :: g)
                            (fork host h workerFile (html :: bundle :: out :: g))
                    :: logs))
      as (evs & Hrest & Hcalls & Hchildren).
    rewrite Hrest. unfold ret. rewrite <- app_assoc.
    exists ((Fork workerFile (html :: bundle :: out :: g)
                  (fork host h workerFile (html :: bundle :: out :: g)) :: logs) ++ evs).
    rewrite forked_app, forked_calls_app. cbn [forked forked_calls map].
    rewrite Hnone, (forked_calls_none _ Hnone), Hcalls. cbn [app].
    repeat split; auto. constructor; eauto.
Qed.

(** The loop body at an output path whose index document is readable and
    whose server bundle is on disk. *)
Lemma render_outputPath_dispatches :
  forall resolved n browserResult serverResult outputPath h browserBase indexHtml,
    BuildBuilderOutput.baseOutputPath browserResult = Some browserBase ->
    readFileSync host h (path_join host [outputPath; "index.html"%string])
    = inr indexHtml ->
    existsSync host h
      (bundle_path host serverResult (path_relative host browserBase outputPath))
    = true ->
    exists line evs,
      render_outputPath host resolved n browserResult serverResult outputPath h
      = (match state (Promise_all (map child_promise (forked evs))) with
         | Fulfilled _ => Ok tt
         | RejectedWith e => Throw e
         | NeverSettles => Hang
         end,
         h ++ LogInfo line :: evs)
      /\ forked_calls evs
         = map (fun group =>
                  (workerFile,
                   indexHtml
                     :: bundle_path host serverResult
                          (path_relative host browserBase outputPath)
                     :: outputPath :: group))
               (groupArray resolved n)
      /\ Forall (fun child => exists h' args, child = fork host h' workerFile args)
                (forked evs).
Proof.
  intros resolved n b s p h bbase html Hbase Hread Hexists.
  unfold render_outputPath, bind at 1, now. cbn.
  unfold bind at 1, call. rewrite Hread. cbn.
  unfold bind at 1, relative. rewrite Hbase. cbn.
  unfold bind at 1. rewrite Hexists. cbn.
  unfold bind at 1, emit.
  match goal with
  | |- context [LogInfo ?l] => set (line := l)
  end.
  destruct (parallelRenderRoutes_calls (groupArray resolved n) html p
              (bundle_path host s (path_relative host bbase p)) (h ++ [LogInfo line]))
    as (evs & Hrun & Hcalls & Hchildren).
  exists line, evs. unfold bind, await, ret. rewrite Hrun, <- app_assoc. cbn [app].
  split; [|split; assumption].
  destruct (state (Promise_all (map child_promise (forked evs)))); reflexivity.
Qed.

Lemma render_outputPath_unreadable :
  forall resolved n browserResult serverResult outputPath h e,
    readFileSync host h (path_join host [outputPath; "index.html"%string]) = inl e ->
    render_outputPath host resolved n browserResult serverResult outputPath h
    = (Throw e, h).
Proof.
  intros resolved n b s p h e Hread.
  unfold render_outputPath, bind, now, call. now rewrite Hread.
Qed.

End Dispatch.

(** X9. One worker per group: at an output path whose index document is
    readable and whose server bundle exists, the loop body forks
    [render.js] once per group of [groupArray routes numProcesses], in
    order, with the contents of the index document, the server bundle path,
    the output path and the routes of the group as arguments - whatever the
    workers do afterwards. *)
Theorem render_outputPath_forks_one_worker_per_group :
  forall host resolved n browserResult serverResult outputPath h browserBase indexHtml,
    BuildBuilderOutput.baseOutputPath browserResult = Some browserBase ->
    readFileSync host h (path_join host [outputPath; "index.html"%string])
    = inr indexHtml ->
    existsSync host h
      (bundle_path host serverResult (path_relative host browserBase outputPath))
    = true ->
    forked_calls
      (events_since h
         (render_outputPath host resolved n browserResult serverResult outputPath h))
    = map (fun group =>
             (path_join host [dirname host; "render.js"%string],
              indexHtml
                :: bundle_path host serverResult
                     (path_relative host browserBase outputPath)
                :: outputPath :: group))
          (groupArray resolved n).
Proof.
  intros host resolved n b s p h bbase html Hbase Hread Hexists.
  destruct (@render_outputPath_dispatches host resolved n b s p h bbase html
              Hbase Hread Hexists) as (line & evs & Hrun & Hcalls & _).
  unfold events_since. rewrite Hrun. cbn [snd].
  rewrite skipn_length_app. exact Hcalls.
Qed.

Lemma render_outputPath_forks_one_worker_per_group_witness :
  forked_calls
    (events_since []
       (render_outputPath Sample.healthy ["/"; "/about"; "/contact"]%string 2
          Sample.browserOutput Sample.serverOutput "/dist/browser/fr" []))
  = [("/node_modules/builders/prerender/render.js",
      ["<app-root></app-root>"; "/dist/server/fr/main.js"; "/dist/browser/fr";
       "/"; "/about"]);
     ("/node_modules/builders/prerender/render.js",
      ["<app-root></app-root>"; "/dist/server/fr/main.js"; "/dist/browser/fr";
       "/contact"])]%string.
Proof.
  rewrite (@render_outputPath_forks_one_worker_per_group Sample.healthy
             ["/"; "/about"; "/contact"]%string 2%Z
             Sample.browserOutput Sample.serverOutput "/dist/browser/fr"%string []
             "/dist/browser"%string "<app-root></app-root>"%string
             eq_refl eq_refl eq_refl).
  reflexivity.
Defined.

(** X10. Failures of single routes are not fatal. When the browser result
    has a base output path, every index document is readable, every server
    bundle exists and every worker exits, [_renderUniversal] returns the
    browser result unchanged, whatever the workers reported, and has forked
    one worker per group for each output path. *)
Theorem renderUniversal_returns_browserResult :
  forall host resolved n browserResult serverResult browserBase,
    BuildBuilderOutput.baseOutputPath browserResult = Some browserBase ->
    (forall outputPath h,
       In outputPath (BuildBuilderOutput.outputPaths browserResult) ->
       exists indexHtml,
         readFileSync host h (path_join host [outputPath; "index.html"%string])
         = inr indexHtml) ->
    (forall outputPath h,
       In outputPath (BuildBuilderOutput.outputPaths browserResult) ->
       existsSync host h
         (bundle_path host serverResult (path_relative host browserBase outputPath))
       = true) ->
    (forall h modulePath args, exited (fork host h modulePath args)) ->
    forall h,
      fst (_renderUniversal host resolved n browserResult serverResult h)
      = Ok browserResult
      /\ List.length
           (forked (events_since h
                      (_renderUniversal host resolved n browserResult serverResult h)))
         = List.length (BuildBuilderOutput.outputPaths browserResult)
           * List.length (groupArray resolved n).
Proof.
  intros host resolved n b s bbase Hbase Hread Hbundle Hexit h.
  assert (Hloop : forall paths,
             incl paths (BuildBuilderOutput.outputPaths b) ->
             forall h0, exists evs,
               for_of paths (render_outputPath host resolved n b s) h0
               = (Ok tt, h0 ++ evs)
               /\ List.length (forked evs)
                  = List.length paths * List.length (groupArray resolved n)).
  { induction paths as [|p paths IH]; intros Hincl h0; cbn [for_of].
    - exists []. now rewrite app_nil_r.
    - assert (Hp : In p (BuildBuilderOutput.outputPaths b))
        by (apply Hincl; now left).
      destruct (Hread p h0 Hp) as [html Hhtml].
      destruct (@render_outputPath_dispatches host resolved n b s p h0 bbase html
                  Hbase Hhtml (Hbundle p h0 Hp))
        as (line & evs & Hrun & Hcalls & Hchildren).
      destruct (@Promise_all_of_fulfilled _ (map child_promise (forked evs)))
        as [vs Hvs].
      { intros q Hq. apply in_map_iff in Hq. destruct Hq as (child & <- & Hin).
        rewrite Forall_forall in Hchildren.
        destruct (Hchildren child Hin) as (h' & args & ->).
        exists (fork host h'
                  (path_join host [dirname host; "render.js"%string]) args).
        apply exited_child_promise, Hexit. }
      rewrite Hvs in Hrun. unfold bind. rewrite Hrun.
      destruct (IH (fun q Hq => Hincl q (or_intror Hq)) (h0 ++ LogInfo line :: evs))
        as (evs' & Hrest & Hcount).
      rewrite Hrest, <- app_assoc. exists ((LogInfo line :: evs) ++ evs').
      split; [reflexivity|].
      rewrite forked_app, length_app. cbn [forked app].
      rewrite Hcount, forked_calls_length, Hcalls, length_map. cbn. lia. }
  destruct (Hloop _ (incl_refl _) h) as (evs & Hrun & Hcount).
  unfold events_since, _renderUniversal, bind, ret. rewrite Hrun. cbn [fst snd].
  now rewrite skipn_length_app.
Qed.

Lemma renderUniversal_returns_browserResult_witness :
  fst (_renderUniversal Scenario.route_fails ["/"; "/about"; "/contact"]%string 3
         Sample.browserOutput Sample.serverOutput [])
  = Ok Sample.browserOutput
  /\ List.length
       (forked (events_since []
                  (_renderUniversal Scenario.route_fails ["/"; "/about"; "/contact"]%string 3
                     Sample.browserOutput Sample.serverOutput [])))
     = 2 * 3.
Proof.
  apply (@renderUniversal_returns_browserResult Scenario.route_fails
           ["/"; "/about"; "/contact"]%string 3%Z
           Sample.browserOutput Sample.serverOutput "/dist/browser"%string eq_refl).
  - intros p h [<- | [<- | []]]; eexists; reflexivity.
  - intros p h [<- | [<- | []]]; reflexivity.
  - intros h modulePath args. reflexivity.
Defined.

(** X11. An index document that cannot be read is fatal: at an output path
    the loop reaches, the error [readFileSync] throws leaves
    [_renderUniversal], and nothing is looked up, logged or forked for this
    output path or a later one. *)
Theorem renderUniversal_unreadable_index :
  forall host resolved n browserResult serverResult earlier outputPath later h h1 e,
    BuildBuilderOutput.outputPaths browserResult = earlier ++ outputPath :: later ->
    for_of earlier (render_outputPath host resolved n browserResult serverResult) h
    = (Ok tt, h1) ->
    readFileSync host h1 (path_join host [outputPath; "index.html"%string]) = inl e ->
    _renderUniversal host resolved n browserResult serverResult h = (Throw e, h1).
Proof.
  intros host resolved n b s earlier p later h h1 e Hpaths Hearlier Hread.
  eapply renderUniversal_stops_at; eauto.
  now apply render_outputPath_unreadable.
Qed.

Lemma renderUniversal_unreadable_index_witness :
  fst (_renderUniversal Scenario.index_missing ["/"; "/about"; "/contact"]%string 3
         Sample.browserOutput Sample.serverOutput [])
  = Throw (mkError "ENOENT: no such file or directory, open /dist/browser/fr/index.html").
Proof.
  rewrite (@renderUniversal_unreadable_index Scenario.index_missing
             ["/"; "/about"; "/contact"]%string 3%Z
             Sample.browserOutput Sample.serverOutput
             ["/dist/browser/en"%string] "/dist/browser/fr"%string [] [] _
             (mkError "ENOENT: no such file or directory, open /dist/browser/fr/index.html")
             eq_refl eq_refl eq_refl).
  reflexivity.
Defined.

(** ** What [execute] returns *)

Lemma renderUniversal_returns :
  forall host resolved n browserResult serverResult h rendered h',
    _renderUniversal host resolved n browserResult serverResult h = (Ok rendered, h') ->
    rendered = browserResult.
Proof.
  intros host resolved n b s h r h'. unfold _renderUniversal, bind, ret.
  destruct (for_of _ _ h) as [[u|e|] h1]; congruence.
Qed.

(** X12. What [execute] returns is either a bare status that reports
    failure, or the output the browser build fulfilled with, which is then
    successful and has a base output path: a bare status never reports
    success. *)
Theorem execute_returns_failure_or_browser_output :
  forall host options h out,
    fst (execute host options h) = Ok out ->
    match out with
    | StatusOnly status => BuilderOutput.success status = false
    | BrowserOutput rendered =>
        exists browserRun serverRun h1,
          schedule_both host options h = (Ok (browserRun, serverRun), h1)
          /\ state (result browserRun) = Fulfilled rendered
          /\ BuildBuilderOutput.success rendered = true
          /\ BuildBuilderOutput.baseOutputPath rendered <> None
    end.
Proof.
  intros host options h out. unfold execute, bind at 1, call.
  destruct (getRoutes host _ _ _) as [e|resolved]; [discriminate|]. cbn [ret].
  destruct (Nat.eqb _ _); [discriminate|].
  unfold bind at 1.
  destruct (_scheduleBuilds host options h) as [[built|e|] h0] eqn:Hrun;
    try discriminate.
  destruct (scheduleBuilds_returns _ _ _ Hrun)
    as (b & s & h1 & Hsched & _ & [(br & sr & Hbr & Hsr & ->) | (e & _ & ->)]).
  - destruct (ScheduleBuildsOutput.success (combine_results br sr)) eqn:Hsucc.
    + cbn [combine_results ScheduleBuildsOutput.browserResult
           ScheduleBuildsOutput.serverResult].
      unfold bind.
      destruct (_renderUniversal _ _ _ _ _ _) as [[r|e|] h2] eqn:Hrender;
        try discriminate.
      apply renderUniversal_returns in Hrender. subst r.
      cbn. intros H. injection H as <-.
      cbn in Hsucc. rewrite !andb_true_iff in Hsucc.
      destruct Hsucc as [[Hb Hs] Hbase].
      exists b, s, h1. repeat split; auto.
      destruct (BuildBuilderOutput.baseOutputPath br); congruence.
    + cbn. intros H. injection H as <-. reflexivity.
  - cbn. intros H. injection H as <-. reflexivity.
Qed.

Lemma execute_returns_failure_or_browser_output_witness :
  exists browserRun serverRun h1,
    schedule_both Sample.healthy Sample.options [] = (Ok (browserRun, serverRun), h1)
    /\ state (result browserRun) = Fulfilled Sample.browserOutput
    /\ BuildBuilderOutput.success Sample.browserOutput = true
    /\ BuildBuilderOutput.baseOutputPath Sample.browserOutput <> None.
Proof.
  apply (@execute_returns_failure_or_browser_output Sample.healthy Sample.options []
           (BrowserOutput Sample.browserOutput)).
  reflexivity.
Defined.

(** X18. When both builds fulfil but one of them reports a failure, or the
    browser build gives no base output path, [execute] returns a failure
    status with the builds' error once both runs are stopped, and forks no
    worker. *)
Theorem execute_fails_on_unusable_builds :
  forall host options h h1 browserRun serverRun browserResult serverResult resolved,
    getRoutes host (workspaceRoot host) (routesFile options) (routes options)
    = inr resolved ->
    resolved <> [] ->
    schedule_both host options h = (Ok (browserRun, serverRun), h1) ->
    state (result browserRun) = Fulfilled browserResult ->
    state (result serverRun) = Fulfilled serverResult ->
    released browserRun serverRun h1 = true ->
    BuildBuilderOutput.success browserResult = false
    \/ BuildBuilderOutput.success serverResult = false
    \/ BuildBuilderOutput.baseOutputPath browserResult = None ->
    execute host options h
    = (Ok (StatusOnly
             (BuilderOutput.make false
                (or_string (BuildBuilderOutput.error browserResult)
                           (BuildBuilderOutput.error serverResult)))),
       h1 ++ [Stop (handle browserRun); Stop (handle serverRun)])
    /\ forked (events_since h (execute host options h)) = [].
Proof.
  intros host options h h1 b s br sr resolved Hroutes Hne Hsched Hb Hs Hrel Hbad.
  assert (Hall : state (Promise_all2 (result b) (result s)) = Fulfilled (br, sr))
    by (apply Promise_all2_fulfilled; auto).
  assert (Hbuild : _scheduleBuilds host options h
                   = (Ok (combine_results br sr),
                      h1 ++ [Stop (handle b); Stop (handle s)])).
  { rewrite (scheduleBuilds_scheduled _ _ _ Hsched), await_builds_run, Hall.
    unfold released in Hrel. cbn.
    destruct (state (Promise_all2 (stopped (job b) h1) _)); try discriminate.
    reflexivity. }
  assert (Hfail : ScheduleBuildsOutput.success (combine_results br sr) = false).
  { cbn. destruct Hbad as [-> | [-> | ->]];
      rewrite ?andb_false_r, ?andb_false_l; reflexivity. }
  pose proof (@execute_stops_on_failure _ _ _ _ _ _ Hroutes Hne Hbuild Hfail) as Hrun.
  split; [exact Hrun|].
  destruct (@scheduleBuilds_events _ _ _ _ _ Hbuild) as (evs & Hevs & Hnone).
  unfold events_since. rewrite Hrun. cbn [snd]. rewrite Hevs.
  now rewrite skipn_length_app.
Qed.

Lemma execute_fails_on_unusable_builds_witness :
  fst (execute Scenario.browser_base_undefined Sample.options [])
  = Ok (StatusOnly (BuilderOutput.make false None))
  /\ forked (events_since [] (execute Scenario.browser_base_undefined Sample.options []))
     = [].
Proof.
  destruct (@execute_fails_on_unusable_builds Scenario.browser_base_undefined
              Sample.options [] _ _ _
              Scenario.browserOutput_without_base Sample.serverOutput
              ["/"; "/about"; "/contact"]%string
              eq_refl ltac:(discriminate) eq_refl eq_refl eq_refl eq_refl
              (or_intror (or_intror eq_refl)))
    as [Hrun Hnone].
  split; [rewrite Hrun; reflexivity | exact Hnone].
Defined.

(** * Properties of the install schematic *)

(** ** Looking up an import *)

Lemma findImportSpecifier_matches :
  forall element importName,
    (match Install.propertyName element with
     | Some original => String.eqb original importName
     | None => String.eqb (Install.name element) importName
     end) = true
    <-> Install.importedName element = importName.
Proof.
  intros element importName. unfold Install.importedName.
  destruct (Install.propertyName element); apply String.eqb_eq.
Qed.

Lemma findImportSpecifier_imports :
  forall elements importName element,
    Install.findImportSpecifier elements importName = Some element ->
    In element elements /\ Install.importedName element = importName.
Proof.
  intros elements importName element H. unfold Install.findImportSpecifier in H.
  apply find_some in H. destruct H as [Hin Hm].
  split; [exact Hin | now apply findImportSpecifier_matches].
Qed.

(** X13. [findImportSpecifier] returns the first element that imports the
    given name - the name before [as] when the import is renamed, never the
    local alias - and returns nothing exactly when no element imports it. *)
Theorem findImportSpecifier_first_match :
  forall elements importName,
    (forall element,
       Install.findImportSpecifier elements importName = Some element ->
       exists before after,
         elements = before ++ element :: after
         /\ Install.importedName element = importName
         /\ Forall (fun other => Install.importedName other <> importName) before)
    /\ (Install.findImportSpecifier elements importName = None
        <-> Forall (fun other => Install.importedName other <> importName) elements).
Proof.
  intros elements importName. unfold Install.findImportSpecifier.
  induction elements as [|x xs [IHsome IHnone]]; cbn [find].
  - split; [discriminate | split; auto].
  - destruct (match Install.propertyName x with
              | Some original => String.eqb original importName
              | None => String.eqb (Install.name x) importName
              end) eqn:Hx.
    + apply findImportSpecifier_matches in Hx. split.
      * intros element H. assert (element = x) by congruence. subst element. exists [], xs. auto.
      * split; [discriminate|]. intros H. inversion H. contradiction.
    + assert (Hne : Install.importedName x <> importName).
      { intros Heq. apply findImportSpecifier_matches in Heq. congruence. }
      split.
      * intros element H. destruct (IHsome element H) as (before & after & -> & Hm & Hb).
        exists (x :: before), after. auto.
      * rewrite IHnone. split; [auto | intros H; now inversion H].
Qed.

(** X14. What [findImport] returns is the named imports of a top-level
    import declaration of the given module, and they import the given
    symbol: looking the symbol up in them again finds it. *)
Theorem findImport_sound :
  forall sourceFile moduleName symbolName imports,
    Install.findImport sourceFile moduleName symbolName = Some imports ->
    (exists defaultName,
        In (Install.ImportDeclaration
              (Some (Install.mkImportClause defaultName
                       (Some (Install.IsNamedImports imports))))
              (Install.StringLiteral moduleName))
           (Install.statements sourceFile))
    /\ exists element,
         Install.findImportSpecifier (Install.elements imports) symbolName
         = Some element
         /\ Install.importedName element = symbolName.
Proof.
  intros [file nodes] moduleName symbolName imports. unfold Install.findImport. cbn.
  induction nodes as [|node nodes IH]; cbn; [discriminate|].
  assert (Hskip : Install.findImport_from nodes moduleName symbolName = Some imports ->
                  (exists defaultName,
                      node = Install.ImportDeclaration
                               (Some (Install.mkImportClause defaultName
                                        (Some (Install.IsNamedImports imports))))
                               (Install.StringLiteral moduleName)
                      \/ In (Install.ImportDeclaration
                               (Some (Install.mkImportClause defaultName
                                        (Some (Install.IsNamedImports imports))))
                               (Install.StringLiteral moduleName)) nodes)
                  /\ exists element,
                       Install.findImportSpecifier (Install.elements imports) symbolName
                       = Some element
                       /\ Install.importedName element = symbolName).
  { intros H. destruct (IH H) as [[d Hd] Hel]. split; eauto. }
  destruct node as [clause specifier|source]; [|exact Hskip].
  destruct specifier as [ | text | | | | ]; try exact Hskip.
  destruct (String.eqb_spec text moduleName) as [->|]; [|exact Hskip].
  destruct clause as [[d [[ns|named]|]]|]; try exact Hskip.
  destruct (Install.findImportSpecifier (Install.elements named) symbolName)
    as [element|] eqn:Hfind; [|exact Hskip].
  intros H. injection H as <-. split; [eauto|].
  exists element. split; [exact Hfind|].
  now apply (findImportSpecifier_imports _ _ Hfind).
Qed.

Lemma findImport_sound_witness :
  exists element,
    Install.findImportSpecifier
      [Install.mkImportSpecifier None "Routes";
       Install.mkImportSpecifier (Some "RouterModule"%string) "Router"]
      "RouterModule"
    = Some element
    /\ Install.importedName element = "RouterModule"%string.
Proof.
  apply (@findImport_sound Install.routing_module "@angular/router" "RouterModule"
           (Install.mkNamedImports
              [Install.mkImportSpecifier None "Routes";
               Install.mkImportSpecifier (Some "RouterModule"%string) "Router"])).
  reflexivity.
Defined.

Lemma findImportSpecifier_none :
  forall elements importName,
    Install.findImportSpecifier elements importName = None
    <-> Forall (fun other => Install.importedName other <> importName) elements.
Proof.
  intros elements importName. unfold Install.findImportSpecifier.
  rewrite Forall_forall. split.
  - intros Hnone x Hin Heq.
    apply (find_none _ _ Hnone) in Hin.
    apply findImportSpecifier_matches in Heq. congruence.
  - intros Hall.
    destruct (find _ elements) as [x|] eqn:Hfind; [|reflexivity].
    apply find_some in Hfind. destruct Hfind as [Hin Hm].
    apply findImportSpecifier_matches in Hm. destruct (Hall x Hin Hm).
Qed.

(** X15. [findImport] returns nothing exactly when no top-level import
    declaration of the given module has named imports that import the
    given symbol: namespace imports, default imports and imports of other
    modules do not count. *)
Theorem findImport_none_iff :
  forall sourceFile moduleName symbolName,
    Install.findImport sourceFile moduleName symbolName = None
    <-> forall defaultName imports,
          In (Install.ImportDeclaration
                (Some (Install.mkImportClause defaultName
                         (Some (Install.IsNamedImports imports))))
                (Install.StringLiteral moduleName))
             (Install.statements sourceFile) ->
          Forall (fun other => Install.importedName other <> symbolName)
                 (Install.elements imports).
Proof.
  intros [file nodes] moduleName symbolName. unfold Install.findImport. cbn.
  induction nodes as [|node nodes IH]; cbn.
  - split; [intros _ d imports [] | reflexivity].
  - assert (Hskip :
      (forall d imports,
         node <> Install.ImportDeclaration
                   (Some (Install.mkImportClause d
                            (Some (Install.IsNamedImports imports))))
                   (Install.StringLiteral moduleName)) ->
      Install.findImport_from nodes moduleName symbolName = None
      <-> (forall d imports,
             node = Install.ImportDeclaration
                      (Some (Install.mkImportClause d
                               (Some (Install.IsNamedImports imports))))
                      (Install.StringLiteral moduleName)
             \/ In (Install.ImportDeclaration
                      (Some (Install.mkImportClause d
                               (Some (Install.IsNamedImports imports))))
                      (Install.StringLiteral moduleName)) nodes ->
             Forall (fun other => Install.importedName other <> symbolName)
                    (Install.elements imports))).
    { intros Hne. rewrite IH. split.
      - intros H d imports [Heq | Hin]; [destruct (Hne _ _ Heq) | eauto].
      - intros H d imports Hin. eauto. }
    destruct node as [clause specifier|source];
      [|apply Hskip; intros; discriminate].
    destruct specifier as [ | text | | | | ];
      try (apply Hskip; intros; discriminate).
    destruct (String.eqb_spec text moduleName) as [->|Hne];
      [|apply Hskip; intros d imports H; injection H as _ H; congruence].
    destruct clause as [[d [[ns|named]|]]|];
      try (apply Hskip; intros; discriminate).
    destruct (Install.findImportSpecifier (Install.elements named) symbolName)
      as [element|] eqn:Hfind.
    + split; [discriminate|]. intros H.
      specialize (H d named (or_introl eq_refl)).
      apply findImportSpecifier_none in H. congruence.
    + rewrite IH. apply findImportSpecifier_none in Hfind. split.
      * intros H d' imports [Heq | Hin]; [|eauto].
        injection Heq as <- <-. exact Hfind.
      * intros H d' imports Hin. eauto.
Qed.

(** ** Router options *)

(** X16. When [addInitialNavigation] returns, the call it returns has the
    callee, the type arguments and the first argument of the call it was
    given, and its second argument is an object literal that assigns
    [initialNavigation]. Either the call is returned as it was - the user
    had set [initialNavigation] - or it has exactly two arguments and
    [initialNavigation: 'enabled'] is the only property of the second: the
    other router options and any further argument are not kept. *)
Theorem addInitialNavigation_sets_initialNavigation :
  forall node updated,
    Install.addInitialNavigation node = inr updated ->
    Install.expression updated = Install.expression node
    /\ Install.typeArguments updated = Install.typeArguments node
    /\ Install.at_index (Install.arguments updated) 0
       = Install.at_index (Install.arguments node) 0
    /\ exists properties multiLine,
         Install.at_index (Install.arguments updated) 1
         = Some (Install.ObjectLiteralExpression properties multiLine)
         /\ existsb Install.is_initialNavigation properties = true
         /\ (updated = node
             \/ (properties = [Install.initialNavigationProperty]
                 /\ Install.arguments updated
                    = [Install.at_index (Install.arguments node) 0;
                       Some (Install.ObjectLiteralExpression properties multiLine)])).
Proof.
  intros node updated. unfold Install.addInitialNavigation.
  destruct (Install.at_index (Install.arguments node) 1)
    as [[ | | properties multiLine | | | ]|] eqn:Hsecond; try discriminate.
  - destruct (existsb Install.is_initialNavigation properties) eqn:Hset;
      intros H; injection H as <-.
    + repeat split. exists properties, multiLine. auto.
    + repeat split. eexists _, _. cbn.
      split; [reflexivity | split; [reflexivity | right; split; reflexivity]].
  - intros H. injection H as <-. repeat split. eexists _, _. cbn.
    split; [reflexivity | split; [reflexivity | right; split; reflexivity]].
Qed.

Lemma addInitialNavigation_sets_initialNavigation_witness :
  exists properties multiLine,
    Install.at_index
      [Some (Install.IdentifierExpression "routes");
       Some (Install.ObjectLiteralExpression [Install.initialNavigationProperty] false)]
      1
    = Some (Install.ObjectLiteralExpression properties multiLine)
    /\ existsb Install.is_initialNavigation properties = true.
Proof.
  destruct (@addInitialNavigation_sets_initialNavigation Install.forRoot_with_options
              (Install.mkCallExpression
                 (Install.PropertyAccessExpression
                    (Install.IdentifierExpression "RouterModule") "forRoot")
                 None
                 [Some (Install.IdentifierExpression "routes");
                  Some (Install.ObjectLiteralExpression
                          [Install.initialNavigationProperty] false)])
              eq_refl)
    as (_ & _ & _ & properties & multiLine & Hsecond & Hset & _).
  exists properties, multiLine. split; [exact Hsecond | exact Hset].
Defined.

(** X17. [addInitialNavigation] is idempotent: applied to a call it has
    returned, it returns that call unchanged. *)
Theorem addInitialNavigation_idempotent :
  forall node updated,
    Install.addInitialNavigation node = inr updated ->
    Install.addInitialNavigation updated = inr updated.
Proof.
  intros node updated. unfold Install.addInitialNavigation at 1.
  destruct (Install.at_index (Install.arguments node) 1)
    as [[ | | properties multiLine | | | ]|] eqn:Hsecond; try discriminate.
  - destruct (existsb Install.is_initialNavigation properties) eqn:Hset;
      intros H; injection H as <-.
    + unfold Install.addInitialNavigation. now rewrite Hsecond, Hset.
    + reflexivity.
  - intros H. injection H as <-. reflexivity.
Qed.

Lemma addInitialNavigation_idempotent_witness :
  Install.addInitialNavigation
    (Install.mkCallExpression
       (Install.PropertyAccessExpression
          (Install.IdentifierExpression "RouterModule") "forRoot")
       None
       [Some (Install.IdentifierExpression "routes");
        Some (Install.ObjectLiteralExpression [Install.initialNavigationProperty] false)])
  = inr (Install.mkCallExpression
           (Install.PropertyAccessExpression
              (Install.IdentifierExpression "RouterModule") "forRoot")
           None
           [Some (Install.IdentifierExpression "routes");
            Some (Install.ObjectLiteralExpression [Install.initialNavigationProperty] false)]).
Proof.
  apply (@addInitialNavigation_idempotent Install.forRoot_with_options).
  reflexivity.
Defined.

(** ** The properties above on the sample file and the sample host *)

Lemma findImportSpecifier_first_match_witness :
  exists before after,
    [Install.mkImportSpecifier None "Routes";
     Install.mkImportSpecifier (Some "RouterModule"%string) "Router"]
    = before ++ Install.mkImportSpecifier (Some "RouterModule"%string) "Router" :: after
    /\ Install.importedName (Install.mkImportSpecifier (Some "RouterModule"%string) "Router")
       = "RouterModule"%string
    /\ Forall (fun other => Install.importedName other <> "RouterModule"%string) before.
Proof.
  destruct (findImportSpecifier_first_match
              [Install.mkImportSpecifier None "Routes";
               Install.mkImportSpecifier (Some "RouterModule"%string) "Router"]
              "RouterModule") as [Hsome _].
  apply Hsome. reflexivity.
Defined.

Lemma findImport_none_iff_witness :
  Install.findImport Install.routing_module "@angular/router" "Router" = None.
Proof.
  apply (findImport_none_iff Install.routing_module "@angular/router" "Router").
  intros defaultName imports [H | [H | [H | []]]]; try discriminate.
  injection H as <- <-. repeat constructor; discriminate.
Defined.

